(** * PumpHouseBoss: the TestPoint helper [phb_test] and the ESP32 boot code

    A shallow embedding of
    - [src/variants/phb-test/components/phb-test/phb-test.h]
      (class [phb_test]: binding arrays, [setup], [mGet] and the indexed
      accessors), and
    - [src/components/esp32bootcode/esp32bootcode.h] ([mGetBootReason]),
    followed by the properties of the specification stated on it. *)

From Stdlib Require Import ZArith Floats.SpecFloat.
From stdpp Require Import base option list strings.

Local Open Scope Z_scope.

(** ** C++ values *)

(** [float] is IEEE 754 binary32: 24 bits of mantissa, infinities at
    exponent 128.  Values are [spec_float]s and arithmetic is the Standard
    Library's executable specification at that format. *)
Module F32.
Definition prec : Z := 24.
Definition emax : Z := 128.
Definition of_Z (z : Z) : spec_float := binary_normalize prec emax z 0 false.
Definition div (x y : spec_float) : spec_float := SFdiv prec emax x y.
(** The literals [0.0f] and [100.0f]. *)
Definition zero : spec_float := S754_zero false.
Definition hundred : spec_float := of_Z 100.
End F32.

Definition float : Type := spec_float.

(** A pointer to one of the configuration's component objects:
    [&id(outputTPk)] is [Some k], [nullptr] is [None]. *)
Definition ptr : Type := option nat.
Definition nullptr : ptr := None.

(** ** The component objects the class points to

    The objects [id(outputTPk)], [id(switchTPk)], [id(numTPkDutyCycle)],
    [id(numTPkFrequency)] and [id(inputTPk)], [k = 0..7], are defined by the
    device configuration; [setup] names all of them.  Of a switch, a number
    and a binary sensor the class uses the public member [state] only, so
    each store below holds that member, object [k] at position [k].  Of an
    LEDC output it uses the member functions [turn_on], [turn_off],
    [update_frequency] and [set_level]: an output is recorded as the calls
    it has received, oldest first. *)
Inductive OutputCall : Type :=
  | turn_on
  | turn_off
  | update_frequency (frequency : float)
  | set_level (level : float).

Record Components : Type := {
  outputTP       : list (list OutputCall);
  switchTP       : list bool;
  numTPDutyCycle : list float;
  numTPFrequency : list float;
  inputTP        : list bool
}.

(** ** Log output: [ESP_LOGE] and [ESP_LOGI] with format and arguments *)
Inductive LogArg : Type :=
  | arg_int (d : Z)
  | arg_float (f : float).

Inductive LogLine : Type :=
  | ESP_LOGE (tag fmt : string) (args : list LogArg)
  | ESP_LOGI (tag fmt : string) (args : list LogArg).

(** ** The class [phb_test] *)
Record phb_test : Type := {
  _InputArray     : list ptr;
  _OutputArray    : list ptr;
  _DutyCycleArray : list ptr;
  _FrequencyArray : list ptr;
  _SwitchArray    : list ptr;
  _Initialized    : bool
}.

(** The program state: the function-local static [instance] of [mGet], the
    component objects, and the log written so far (oldest line first). *)
Record Machine : Type := {
  instance : phb_test;
  esphome  : Components;
  console  : list LogLine
}.

(** ** Execution monad

    A member function is a state transformer that may fault: [None] stands
    for the undefined behaviour of dereferencing a null pointer. *)
Definition Exec (A : Type) : Type := Machine → option (A * Machine).

#[global] Instance Exec_ret : MRet Exec := λ A a m, Some (a, m).
#[global] Instance Exec_bind : MBind Exec := λ A B f e m,
  match e m with
  | Some (a, m') => f a m'
  | None => None
  end.

Definition fault {A} : Exec A := λ _, None.
Definition this : Exec phb_test := λ m, Some (instance m, m).
Definition components : Exec Components := λ m, Some (esphome m, m).
Definition set_this (o : phb_test) : Exec unit := λ m,
  Some (tt, {| instance := o; esphome := esphome m; console := console m |}).
Definition set_components (c : Components) : Exec unit := λ m,
  Some (tt, {| instance := instance m; esphome := c; console := console m |}).
Definition log (l : LogLine) : Exec unit := λ m,
  Some (tt, {| instance := instance m; esphome := esphome m;
               console := console m ++ [l] |}).
Definition lift {A} (o : option A) : Exec A :=
  match o with Some a => mret a | None => fault end.

(** [arr[idx]] for an index already checked to be in range, then the
    dereference of the pointer found there. *)
Definition element (arr : phb_test → list ptr) (idx : Z) : Exec ptr :=
  o ← this; lift (arr o !! Z.to_nat idx).

Definition deref {A} (store : Components → list A) (p : ptr) : Exec (nat * A) :=
  c ← components;
  lift (k ← p; a ← store c !! k; Some (k, a)).

(** [arr[idx]->state] *)
Definition state {A} (arr : phb_test → list ptr) (store : Components → list A)
    (idx : Z) : Exec A :=
  p ← element arr idx; ka ← deref store p; mret ka.2.

Definition set_numTPFrequency (l : list float) (c : Components) : Components :=
  {| outputTP := outputTP c;
     switchTP := switchTP c;
     numTPDutyCycle := numTPDutyCycle c;
     numTPFrequency := l;
     inputTP := inputTP c |}.

Definition set_outputTP (l : list (list OutputCall)) (c : Components) : Components :=
  {| outputTP := l;
     switchTP := switchTP c;
     numTPDutyCycle := numTPDutyCycle c;
     numTPFrequency := numTPFrequency c;
     inputTP := inputTP c |}.

(** [_FrequencyArray[idx]->publish_state(v)]: the [state] of the frequency
    number pointed to becomes [v]. *)
Definition publish_state (idx : Z) (v : float) : Exec unit :=
  p ← element _FrequencyArray idx;
  ka ← deref numTPFrequency p;
  c ← components;
  set_components (set_numTPFrequency (<[ka.1 := v]> (numTPFrequency c)) c).

(** [_OutputArray[idx]->call]: the output records the call. *)
Definition output (idx : Z) (call : OutputCall) : Exec unit :=
  p ← element _OutputArray idx;
  ka ← deref outputTP p;
  c ← components;
  set_components (set_outputTP (<[ka.1 := ka.2 ++ [call]]> (outputTP c)) c).

Section PhbTest.

(** [DEF_TEST_POINTS], the build's [__CONTROL_POINTS__]: the number of
    test points and the length of the five arrays. *)
Variable DEF_TEST_POINTS : nat.

(** A freshly constructed object: every array [= {nullptr}]. *)
Definition new_phb_test : phb_test :=
  {| _InputArray     := replicate DEF_TEST_POINTS nullptr;
     _OutputArray    := replicate DEF_TEST_POINTS nullptr;
     _DutyCycleArray := replicate DEF_TEST_POINTS nullptr;
     _FrequencyArray := replicate DEF_TEST_POINTS nullptr;
     _SwitchArray    := replicate DEF_TEST_POINTS nullptr;
     _Initialized    := false |}.

(** The program before the first call of [mGet]. *)
Definition boot (c : Components) : Machine :=
  {| instance := new_phb_test; esphome := c; console := [] |}.

(** The five assignments of one [case] of [setup]: slot [i] of each array
    receives the address of the objects of test point [k]. *)
Definition bind_case (i k : nat) : Exec unit :=
  o ← this;
  set_this
    {| _OutputArray    := <[i := Some k]> (_OutputArray o);
       _SwitchArray    := <[i := Some k]> (_SwitchArray o);
       _DutyCycleArray := <[i := Some k]> (_DutyCycleArray o);
       _FrequencyArray := <[i := Some k]> (_FrequencyArray o);
       _InputArray     := <[i := Some k]> (_InputArray o);
       _Initialized    := _Initialized o |}.

(** The [switch(i)] in the loop of [setup]. *)
Definition setup_switch (i : nat) : Exec unit :=
  match i with
  | 0%nat => bind_case i 0
  | 1%nat => bind_case i 1
  | 2%nat => bind_case i 2
  | 3%nat => bind_case i 3
  | 4%nat => bind_case i 4
  | 5%nat => bind_case i 5
  | 6%nat => bind_case i 6
  | 7%nat => bind_case i 7
  | 8%nat =>
      log (ESP_LOGE "phb_test" "setup: Maxiumum 8 Test Points supported." [])
  | _ => mret tt
  end.

(** [for (int i = lo; i < DEF_TEST_POINTS; i++)], by the number of
    iterations left. *)
Fixpoint setup_loop (left i : nat) : Exec unit :=
  match left with
  | O => mret tt
  | S left' => setup_switch i;; setup_loop left' (S i)
  end.

Definition set_Initialized (b : bool) : Exec unit :=
  o ← this;
  set_this
    {| _OutputArray    := _OutputArray o;
       _SwitchArray    := _SwitchArray o;
       _DutyCycleArray := _DutyCycleArray o;
       _FrequencyArray := _FrequencyArray o;
       _InputArray     := _InputArray o;
       _Initialized    := b |}.

Definition setup : Exec unit :=
  o ← this;
  if _Initialized o then mret tt
  else setup_loop DEF_TEST_POINTS 0;; set_Initialized true.

(** [mGet()]: the static [instance] lives in the machine state; the
    reference returned is to that object. *)
Definition mGet : Exec unit :=
  o ← this;
  if negb (_Initialized o) then setup;; set_Initialized true
  else mret tt.

Definition invalid (idx : Z) : bool :=
  (idx <? 0) || (idx >=? Z.of_nat DEF_TEST_POINTS).

Definition invalid_index (fn : string) (idx : Z) : Exec unit :=
  log (ESP_LOGE "phb_test" (fn +:+ ": Invalid index or null pointer: idx=%d")
                [arg_int idx]).

Definition mIsEnabled (idx : Z) : Exec bool :=
  if invalid idx then invalid_index "mIsEnabled" idx;; mret false
  else state _SwitchArray switchTP idx.

Definition mTPEnable (idx : Z) : Exec unit :=
  if invalid idx then invalid_index "mTPEnable" idx
  else
    output idx turn_on;;
    f ← state _FrequencyArray numTPFrequency idx;
    output idx (update_frequency f);;
    d ← state _DutyCycleArray numTPDutyCycle idx;
    output idx (set_level (F32.div d F32.hundred));;
    f' ← state _FrequencyArray numTPFrequency idx;
    d' ← state _DutyCycleArray numTPDutyCycle idx;
    log (ESP_LOGI "phb_test"
           "mTPEnable, idx=%d, frequency=%.2f, duty_cycle=%.2f"
           [arg_int idx; arg_float f'; arg_float d']).

Definition mTPDisable (idx : Z) : Exec unit :=
  if invalid idx then invalid_index "mTPDisable" idx
  else
    output idx turn_off;;
    log (ESP_LOGI "phb_test" "mTPDisable" []).

Definition mGetFrequency (idx : Z) : Exec float :=
  if invalid idx then invalid_index "mGetFrequency" idx;; mret F32.zero
  else state _FrequencyArray numTPFrequency idx.

Definition mSetFrequency (idx : Z) (frequency : float) : Exec unit :=
  if invalid idx then invalid_index "mSetFrequency" idx
  else
    publish_state idx frequency;;
    log (ESP_LOGI "phb_test" "mSetFrequency: idx=%d, frequency=%.2f"
           [arg_int idx; arg_float frequency]);;
    on ← state _SwitchArray switchTP idx;
    if (on : bool) then output idx (update_frequency frequency) else mret tt.

Definition mGetDutyCycle (idx : Z) : Exec float :=
  if invalid idx then invalid_index "mGetDutyCycle" idx;; mret F32.zero
  else state _DutyCycleArray numTPDutyCycle idx.

Definition mSetDutyCycle (idx : Z) (duty_cycle : float) : Exec unit :=
  if invalid idx then invalid_index "mSetDutyCycle" idx
  else
    log (ESP_LOGI "phb_test" "mSetDutyCycle: idx=%d, duty_cycle=%.2f"
           [arg_int idx; arg_float duty_cycle]);;
    on ← state _SwitchArray switchTP idx;
    if (on : bool) then output idx (set_level (F32.div duty_cycle F32.hundred))
    else mret tt.

Definition mGetInputState (idx : Z) : Exec bool :=
  if invalid idx then invalid_index "mGetInputState" idx;; mret false
  else state _InputArray inputTP idx.

(** *** Use by the firmware

    The accessors are reached through the singleton only,
    [phb_test::mGet().mIsEnabled(idx)] and so on. *)
Inductive Call : Type :=
  | get
  | isEnabled (idx : Z)
  | enable (idx : Z)
  | disable (idx : Z)
  | getFrequency (idx : Z)
  | setFrequency (idx : Z) (value : float)
  | getDutyCycle (idx : Z)
  | setDutyCycle (idx : Z) (value : float)
  | getInputState (idx : Z).

Inductive Value : Type :=
  | void
  | of_bool (b : bool)
  | of_float (f : float).

Definition member (c : Call) : Exec Value :=
  match c with
  | get => mret void
  | isEnabled idx => b ← mIsEnabled idx; mret (of_bool b)
  | enable idx => mTPEnable idx;; mret void
  | disable idx => mTPDisable idx;; mret void
  | getFrequency idx => f ← mGetFrequency idx; mret (of_float f)
  | setFrequency idx v => mSetFrequency idx v;; mret void
  | getDutyCycle idx => f ← mGetDutyCycle idx; mret (of_float f)
  | setDutyCycle idx v => mSetDutyCycle idx v;; mret void
  | getInputState idx => b ← mGetInputState idx; mret (of_bool b)
  end.

Definition perform (c : Call) : Exec Value := mGet;; member c.

End PhbTest.

(** ** Indices and the log *)

(** The indices the members accept. *)
Definition valid (n : nat) (idx : Z) : Prop := 0 ≤ idx < Z.of_nat n.

(** What one iteration of the loop of [setup] logs. *)
Definition setup_log (i : nat) : list LogLine :=
  if decide (i = 8%nat)
  then [ESP_LOGE "phb_test" "setup: Maxiumum 8 Test Points supported." []]
  else [].

(** The log of a complete [setup]. *)
Definition setup_console (n : nat) : list LogLine :=
  mjoin (setup_log <$> seq 0 n).

(** The state a member leaves when it rejects an index: one error line
    more in the log. *)
Definition rejected (fn : string) (idx : Z) (m : Machine) : Machine :=
  {| instance := instance m;
     esphome := esphome m;
     console := console m ++
       [ESP_LOGE "phb_test" (fn +:+ ": Invalid index or null pointer: idx=%d")
          [arg_int idx]] |}.

(** [keeps e]: running [e] leaves the [phb_test] object as it was. *)
Definition keeps {A} (e : Exec A) : Prop :=
  ∀ m, match e m with
       | Some (_, m') => instance m' = instance m
       | None => True
       end.

(** ** States of the program *)

(** All forty component objects exist: [setup] names each of them, so the
    firmware does not build otherwise. *)
Definition wired (c : Components) : Prop :=
  length (outputTP c) = 8%nat ∧ length (switchTP c) = 8%nat ∧
  length (numTPDutyCycle c) = 8%nat ∧ length (numTPFrequency c) = 8%nat ∧
  length (inputTP c) = 8%nat.

(** What [setup] leaves in slot [i] of each array, and in the array. *)
Definition slot (i : nat) : ptr := if decide (i < 8)%nat then Some i else nullptr.
Definition slots (n : nat) : list ptr := slot <$> seq 0 n.

(** The arrays while [setup] runs: [i] slots done, [left] still null. *)
Definition table (i left : nat) (initialized : bool) : phb_test :=
  {| _InputArray     := slots i ++ replicate left nullptr;
     _OutputArray    := slots i ++ replicate left nullptr;
     _DutyCycleArray := slots i ++ replicate left nullptr;
     _FrequencyArray := slots i ++ replicate left nullptr;
     _SwitchArray    := slots i ++ replicate left nullptr;
     _Initialized    := initialized |}.

(** The object once [setup] has completed. *)
Definition bound (n : nat) : phb_test :=
  {| _InputArray     := slots n;
     _OutputArray    := slots n;
     _DutyCycleArray := slots n;
     _FrequencyArray := slots n;
     _SwitchArray    := slots n;
     _Initialized    := true |}.

Definition ready (n : nat) (m : Machine) : Prop :=
  instance m = bound n ∧ wired (esphome m).

(** The states the firmware can be in once it has used the singleton: it
    calls members through [mGet], and between calls the framework and the
    user change the component objects (a switch is toggled, an input
    changes, a number is set). *)
Inductive reachable (n : nat) (c0 : Components) : Machine → Prop :=
  | reach_first call r m :
      perform n call (boot n c0) = Some (r, m) → reachable n c0 m
  | reach_call call r m m' :
      reachable n c0 m → perform n call m = Some (r, m') → reachable n c0 m'
  | reach_components c m :
      reachable n c0 m → wired c →
      reachable n c0
        {| instance := instance m; esphome := c; console := console m |}.

(** All five pointers of slot [i] are non-null. *)
Definition slot_bound (o : phb_test) (i : nat) : Prop :=
  (∃ k, _InputArray o !! i = Some (Some k)) ∧
  (∃ k, _OutputArray o !! i = Some (Some k)) ∧
  (∃ k, _DutyCycleArray o !! i = Some (Some k)) ∧
  (∃ k, _FrequencyArray o !! i = Some (Some k)) ∧
  (∃ k, _SwitchArray o !! i = Some (Some k)).

(** ** The boot code: [esphome::bootcode::BootCode] *)

(** The enumerators of [esp_reset_reason_t] that [mGetBootReason] names.
    The enumeration is declared in the SDK's [esp_system.h]; its values are
    taken as given. *)
Class esp_reset_reason_t_enum : Type := {
  ESP_RST_POWERON   : Z;
  ESP_RST_EXT       : Z;
  ESP_RST_SW        : Z;
  ESP_RST_PANIC     : Z;
  ESP_RST_INT_WDT   : Z;
  ESP_RST_TASK_WDT  : Z;
  ESP_RST_WDT       : Z;
  ESP_RST_DEEPSLEEP : Z;
  ESP_RST_BROWNOUT  : Z;
  ESP_RST_SDIO      : Z
}.

Definition enumerated `{esp_reset_reason_t_enum} : list Z :=
  [ESP_RST_POWERON; ESP_RST_EXT; ESP_RST_SW; ESP_RST_PANIC; ESP_RST_INT_WDT;
   ESP_RST_TASK_WDT; ESP_RST_WDT; ESP_RST_DEEPSLEEP; ESP_RST_BROWNOUT;
   ESP_RST_SDIO].

(** [mGetBootReason], as a function of the value [esp_reset_reason()]
    returns.  The [case] labels are tried in the order of the source. *)
Definition mGetBootReason `{esp_reset_reason_t_enum} (reason : Z) : string :=
  if reason =? ESP_RST_POWERON then "Power On Reset"
  else if reason =? ESP_RST_EXT then "External System Reset"
  else if reason =? ESP_RST_SW then "Software Reset"
  else if reason =? ESP_RST_PANIC then "Exception/Panic"
  else if reason =? ESP_RST_INT_WDT then "Interrupt Watchdog"
  else if reason =? ESP_RST_TASK_WDT then "Task Watchdog"
  else if reason =? ESP_RST_WDT then "Other Watchdog"
  else if reason =? ESP_RST_DEEPSLEEP then "Deep Sleep Reset"
  else if reason =? ESP_RST_BROWNOUT then "Brownout Reset"
  else if reason =? ESP_RST_SDIO then "SDIO Reset"
  else "Unknown".

Definition boot_reasons : list string :=
  ["Power On Reset"; "External System Reset"; "Software Reset";
   "Exception/Panic"; "Interrupt Watchdog"; "Task Watchdog"; "Other Watchdog";
   "Deep Sleep Reset"; "Brownout Reset"; "SDIO Reset"; "Unknown"].

(** The values of the enumerators in the SDK. *)
Definition esp_idf : esp_reset_reason_t_enum :=
  {| ESP_RST_POWERON := 1; ESP_RST_EXT := 2; ESP_RST_SW := 3;
     ESP_RST_PANIC := 4; ESP_RST_INT_WDT := 5; ESP_RST_TASK_WDT := 6;
     ESP_RST_WDT := 7; ESP_RST_DEEPSLEEP := 8; ESP_RST_BROWNOUT := 9;
     ESP_RST_SDIO := 10 |}.

(** ** What a call addresses and what it leaves alone *)

(** The index a call passes to the member, if it passes one. *)
Definition index_of (c : Call) : option Z :=
  match c with
  | get => None
  | isEnabled idx | enable idx | disable idx | getFrequency idx
  | setFrequency idx _ | getDutyCycle idx | setDutyCycle idx _
  | getInputState idx => Some idx
  end.

(** [untouched m m']: from [m] to [m'] every switch, every input and every
    duty-cycle number are the same, and no output or frequency number has
    appeared or disappeared. *)
Definition untouched (m m' : Machine) : Prop :=
  switchTP (esphome m') = switchTP (esphome m) ∧
  inputTP (esphome m') = inputTP (esphome m) ∧
  numTPDutyCycle (esphome m') = numTPDutyCycle (esphome m) ∧
  length (outputTP (esphome m')) = length (outputTP (esphome m)) ∧
  length (numTPFrequency (esphome m')) = length (numTPFrequency (esphome m)).

(** [preserving R e]: whenever [e] completes, the states before and after
    are related by [R]. *)
Definition preserving (R : Machine → Machine → Prop) {A} (e : Exec A) : Prop :=
  ∀ m, match e m with
       | Some (_, m') => R m m'
       | None => True
       end.

(** The line [setup] logs for a build of more than eight test points. *)
Definition too_many : LogLine :=
  ESP_LOGE "phb_test" "setup: Maxiumum 8 Test Points supported." [].

(** [quiet m m']: from [m] to [m'] the log has only grown, and by no line
    of [setup]'s error. *)
Definition quiet (m m' : Machine) : Prop :=
  ∃ lines, console m' = console m ++ lines ∧ too_many ∉ lines.

(** ** Concrete states *)

(** Components at rest: everything off and zero. *)
Definition hw0 : Components :=
  {| outputTP := replicate 8 [];
     switchTP := replicate 8 false;
     numTPDutyCycle := replicate 8 F32.zero;
     numTPFrequency := replicate 8 F32.zero;
     inputTP := replicate 8 false |}.

(** A second set of components: test point 3 is switched on, at 1000 Hz and
    50 %. *)
Definition hw1 : Components :=
  {| outputTP := replicate 8 [];
     switchTP := <[3%nat := true]> (replicate 8 false);
     numTPDutyCycle := <[3%nat := F32.of_Z 50]> (replicate 8 F32.zero);
     numTPFrequency := <[3%nat := F32.of_Z 1000]> (replicate 8 F32.zero);
     inputTP := replicate 8 false |}.

(** The state [mGet] leaves when first called. *)
Definition started (n : nat) (c : Components) : Machine :=
  {| instance := bound n; esphome := c; console := setup_console n |}.

(** * Properties *)

(** ** Running the monad *)

Lemma bind_Some {A B} (e : Exec A) (f : A → Exec B) m a m' :
  e m = Some (a, m') → (e ≫= f) m = f a m'.
Proof. intros He. unfold mbind, Exec_bind. by rewrite He. Qed.

Lemma bind_None {A B} (e : Exec A) (f : A → Exec B) m :
  e m = None → (e ≫= f) m = None.
Proof. intros He. unfold mbind, Exec_bind. by rewrite He. Qed.

Lemma bind_assoc {A B C} (e : Exec A) (f : A → Exec B) (g : B → Exec C) m :
  ((e ≫= f) ≫= g) m = (e ≫= λ a, f a ≫= g) m.
Proof. unfold mbind, Exec_bind. by destruct (e m) as [[a m']|]. Qed.

(** ** The table [setup] builds *)

Lemma slots_S n : slots (S n) = slots n ++ [slot n].
Proof. unfold slots. by rewrite seq_S, fmap_app. Qed.

Lemma length_slots n : length (slots n) = n.
Proof. unfold slots. by rewrite length_fmap, length_seq. Qed.

Lemma lookup_slots n i : (i < n)%nat → slots n !! i = Some (slot i).
Proof. intros Hi. unfold slots. by rewrite list_lookup_fmap, lookup_seq_lt. Qed.

Lemma lookup_slots_bound n i :
  (i < n)%nat → (i < 8)%nat → slots n !! i = Some (Some i).
Proof.
  intros Hn H8. rewrite lookup_slots by done. unfold slot.
  by rewrite decide_True.
Qed.

Lemma lookup_slots_null n i :
  (i < n)%nat → (8 ≤ i)%nat → slots n !! i = Some nullptr.
Proof.
  intros Hn H8. rewrite lookup_slots by done. unfold slot.
  rewrite decide_False; [done | lia].
Qed.

Lemma insert_after_slots i (x y : ptr) rest :
  <[i := x]> (slots i ++ y :: rest) = slots i ++ x :: rest.
Proof.
  rewrite insert_app_r_alt by (rewrite length_slots; lia).
  by rewrite length_slots, Nat.sub_diag.
Qed.

Lemma slots_S_app i rest : slots (S i) ++ rest = slots i ++ slot i :: rest.
Proof. by rewrite slots_S, <- app_assoc. Qed.

Lemma setup_switch_table i left b c l :
  setup_switch i
    {| instance := table i (S left) b; esphome := c; console := l |}
  = Some (tt, {| instance := table (S i) left b; esphome := c;
                 console := l ++ setup_log i |}).
Proof.
  assert (Hlt : (i < 8)%nat → slot i = Some i)
    by (intros; unfold slot; by rewrite decide_True).
  assert (Hge : (8 ≤ i)%nat → slot i = nullptr)
    by (intros; unfold slot; rewrite decide_False; [done | lia]).
  unfold table. rewrite !slots_S_app.
  do 9 (destruct i as [|i];
        [ try (rewrite Hlt by lia);
          cbn; rewrite ?insert_after_slots, ?app_nil_r; try rewrite Hge by lia;
          reflexivity | ]).
  rewrite Hge by lia. cbn. by rewrite app_nil_r.
Qed.

Lemma setup_loop_table left : ∀ i b c l,
  setup_loop left i
    {| instance := table i left b; esphome := c; console := l |}
  = Some (tt, {| instance := table (i + left) 0 b; esphome := c;
                 console := l ++ mjoin (setup_log <$> seq i left) |}).
Proof.
  induction left as [|left IH]; intros i b c l.
  - cbn. by rewrite Nat.add_0_r, app_nil_r.
  - cbn [setup_loop]. erewrite bind_Some by apply setup_switch_table.
    rewrite IH. cbn [seq fmap list_fmap mjoin list_join].
    by rewrite Nat.add_succ_r, app_assoc.
Qed.

Lemma table_bound n : table n 0 true = bound n.
Proof. unfold table, bound. cbn. by rewrite app_nil_r. Qed.

Lemma new_phb_test_table n : new_phb_test n = table 0 n false.
Proof. reflexivity. Qed.

Lemma setup_boot n c :
  setup n (boot n c)
  = Some (tt, {| instance := bound n; esphome := c;
                 console := setup_console n |}).
Proof.
  unfold setup, boot. rewrite new_phb_test_table.
  erewrite bind_Some by reflexivity. cbn [instance table _Initialized].
  erewrite bind_Some by apply setup_loop_table.
  rewrite <- table_bound. reflexivity.
Qed.

Lemma mGet_boot n c :
  mGet n (boot n c)
  = Some (tt, {| instance := bound n; esphome := c;
                 console := setup_console n |}).
Proof.
  unfold mGet. erewrite bind_Some by reflexivity.
  cbn [boot instance new_phb_test _Initialized negb].
  erewrite bind_Some by apply setup_boot. reflexivity.
Qed.

Lemma mGet_initialized n m :
  _Initialized (instance m) = true → mGet n m = Some (tt, m).
Proof.
  intros Hi. unfold mGet. erewrite bind_Some by reflexivity.
  by rewrite Hi.
Qed.

Lemma mGet_ready n m : ready n m → mGet n m = Some (tt, m).
Proof. intros [Hb _]. apply mGet_initialized. by rewrite Hb. Qed.

(** ** Array elements and dereferences *)

Lemma invalid_false n idx : valid n idx → invalid n idx = false.
Proof. unfold valid, invalid. lia. Qed.

Lemma invalid_true n idx : idx < 0 ∨ Z.of_nat n ≤ idx → invalid n idx = true.
Proof. unfold invalid. lia. Qed.

Lemma element_Some arr idx m p :
  arr (instance m) !! Z.to_nat idx = Some p → element arr idx m = Some (p, m).
Proof.
  intros Hp. unfold element. erewrite bind_Some by reflexivity.
  by rewrite Hp.
Qed.

Lemma deref_Some {A} (store : Components → list A) k a m :
  store (esphome m) !! k = Some a → deref store (Some k) m = Some ((k, a), m).
Proof.
  intros Ha. unfold deref. erewrite bind_Some by reflexivity.
  cbn. by rewrite Ha.
Qed.

Lemma deref_nullptr {A} (store : Components → list A) m :
  deref store nullptr m = None.
Proof. reflexivity. Qed.

Lemma state_Some {A} arr (store : Components → list A) idx m k a :
  arr (instance m) !! Z.to_nat idx = Some (Some k) →
  store (esphome m) !! k = Some a →
  state arr store idx m = Some (a, m).
Proof.
  intros Hp Ha. unfold state.
  erewrite bind_Some by (by apply element_Some).
  erewrite bind_Some by (by apply deref_Some).
  reflexivity.
Qed.

Lemma state_nullptr {A} arr (store : Components → list A) idx m :
  arr (instance m) !! Z.to_nat idx = Some nullptr →
  state arr store idx m = None.
Proof.
  intros Hp. unfold state.
  erewrite bind_Some by (by apply element_Some).
  by apply bind_None.
Qed.

Lemma output_Some idx call m k calls :
  _OutputArray (instance m) !! Z.to_nat idx = Some (Some k) →
  outputTP (esphome m) !! k = Some calls →
  output idx call m
  = Some (tt, {| instance := instance m;
                 esphome := set_outputTP (<[k := calls ++ [call]]>
                                            (outputTP (esphome m))) (esphome m);
                 console := console m |}).
Proof.
  intros Hp Ha. unfold output.
  erewrite bind_Some by (by apply element_Some).
  erewrite bind_Some by (by apply deref_Some).
  reflexivity.
Qed.

Lemma output_nullptr idx call m :
  _OutputArray (instance m) !! Z.to_nat idx = Some nullptr →
  output idx call m = None.
Proof.
  intros Hp. unfold output.
  erewrite bind_Some by (by apply element_Some).
  by apply bind_None.
Qed.

Lemma publish_state_Some idx v m k a :
  _FrequencyArray (instance m) !! Z.to_nat idx = Some (Some k) →
  numTPFrequency (esphome m) !! k = Some a →
  publish_state idx v m
  = Some (tt, {| instance := instance m;
                 esphome := set_numTPFrequency (<[k := v]>
                              (numTPFrequency (esphome m))) (esphome m);
                 console := console m |}).
Proof.
  intros Hp Ha. unfold publish_state.
  erewrite bind_Some by (by apply element_Some).
  erewrite bind_Some by (by apply deref_Some).
  reflexivity.
Qed.

Lemma publish_state_nullptr idx v m :
  _FrequencyArray (instance m) !! Z.to_nat idx = Some nullptr →
  publish_state idx v m = None.
Proof.
  intros Hp. unfold publish_state.
  erewrite bind_Some by (by apply element_Some).
  by apply bind_None.
Qed.

(** In a ready state of a supported build every slot in range is bound
    and every object is there. *)
Lemma ready_slot n m idx (arr : phb_test → list ptr) :
  (n ≤ 8)%nat → valid n idx → arr (bound n) = slots n →
  instance m = bound n →
  arr (instance m) !! Z.to_nat idx = Some (Some (Z.to_nat idx)).
Proof.
  intros Hn Hidx Harr ->. rewrite Harr.
  unfold valid in Hidx. apply lookup_slots_bound; lia.
Qed.

Lemma wired_lookup n idx c :
  (n ≤ 8)%nat → valid n idx → wired c →
  is_Some (outputTP c !! Z.to_nat idx) ∧ is_Some (switchTP c !! Z.to_nat idx) ∧
  is_Some (numTPDutyCycle c !! Z.to_nat idx) ∧
  is_Some (numTPFrequency c !! Z.to_nat idx) ∧
  is_Some (inputTP c !! Z.to_nat idx).
Proof.
  unfold valid. intros Hn Hidx (Ho & Hs & Hd & Hf & Hi).
  repeat split; apply lookup_lt_is_Some; lia.
Qed.

(** ** The members on a valid index *)

Section Valid.
Variable n : nat.
Variable m : Machine.
Variable idx : Z.
Hypothesis supported : (n ≤ 8)%nat.
Hypothesis bound_m : instance m = bound n.
Hypothesis valid_idx : valid n idx.

Lemma mIsEnabled_valid b :
  switchTP (esphome m) !! Z.to_nat idx = Some b → mIsEnabled n idx m = Some (b, m).
Proof using supported bound_m valid_idx.
  intros Hb. unfold mIsEnabled. rewrite invalid_false by done.
  eapply state_Some; [by eapply ready_slot | done].
Qed.

Lemma mGetInputState_valid b :
  inputTP (esphome m) !! Z.to_nat idx = Some b → mGetInputState n idx m = Some (b, m).
Proof using supported bound_m valid_idx.
  intros Hb. unfold mGetInputState. rewrite invalid_false by done.
  eapply state_Some; [by eapply ready_slot | done].
Qed.

Lemma mGetFrequency_valid f :
  numTPFrequency (esphome m) !! Z.to_nat idx = Some f →
  mGetFrequency n idx m = Some (f, m).
Proof using supported bound_m valid_idx.
  intros Hb. unfold mGetFrequency. rewrite invalid_false by done.
  eapply state_Some; [by eapply ready_slot | done].
Qed.

Lemma mGetDutyCycle_valid d :
  numTPDutyCycle (esphome m) !! Z.to_nat idx = Some d →
  mGetDutyCycle n idx m = Some (d, m).
Proof using supported bound_m valid_idx.
  intros Hb. unfold mGetDutyCycle. rewrite invalid_false by done.
  eapply state_Some; [by eapply ready_slot | done].
Qed.

Lemma mTPDisable_valid calls :
  outputTP (esphome m) !! Z.to_nat idx = Some calls →
  mTPDisable n idx m
  = Some (tt, {| instance := instance m;
                 esphome := set_outputTP (<[Z.to_nat idx := calls ++ [turn_off]]>
                              (outputTP (esphome m))) (esphome m);
                 console := console m ++
                              [ESP_LOGI "phb_test" "mTPDisable" []] |}).
Proof using supported bound_m valid_idx.
  intros Ho. unfold mTPDisable. rewrite invalid_false by done.
  erewrite bind_Some
    by (eapply output_Some; [by eapply ready_slot | done]).
  reflexivity.
Qed.

Lemma mTPEnable_valid calls f d :
  outputTP (esphome m) !! Z.to_nat idx = Some calls →
  numTPFrequency (esphome m) !! Z.to_nat idx = Some f →
  numTPDutyCycle (esphome m) !! Z.to_nat idx = Some d →
  mTPEnable n idx m
  = Some (tt, {| instance := instance m;
                 esphome :=
                   set_outputTP
                     (<[Z.to_nat idx := calls ++ [turn_on; update_frequency f;
                                       set_level (F32.div d F32.hundred)]]>
                        (outputTP (esphome m))) (esphome m);
                 console := console m ++
                   [ESP_LOGI "phb_test"
                      "mTPEnable, idx=%d, frequency=%.2f, duty_cycle=%.2f"
                      [arg_int idx; arg_float f; arg_float d]] |}).
Proof using supported bound_m valid_idx.
  intros Ho Hf Hd. unfold mTPEnable. rewrite invalid_false by done.
  assert (Hk : (Z.to_nat idx < length (outputTP (esphome m)))%nat)
    by (apply lookup_lt_is_Some; eauto).
  erewrite bind_Some
    by (eapply output_Some; [by eapply ready_slot | done]).
  erewrite bind_Some
    by (eapply state_Some; [by eapply ready_slot | done]).
  erewrite bind_Some
    by (eapply output_Some; [by eapply ready_slot |];
        cbn; by apply list_lookup_insert_eq).
  erewrite bind_Some
    by (eapply state_Some; [by eapply ready_slot | done]).
  erewrite bind_Some
    by (eapply output_Some; [by eapply ready_slot |];
        cbn; apply list_lookup_insert_eq; by rewrite length_insert).
  erewrite bind_Some
    by (eapply state_Some; [by eapply ready_slot | done]).
  erewrite bind_Some
    by (eapply state_Some; [by eapply ready_slot | done]).
  cbn. unfold set_outputTP; cbn.
  by rewrite !list_insert_insert_eq, <- !app_assoc.
Qed.

Lemma mSetFrequency_valid v calls f (on : bool) :
  outputTP (esphome m) !! Z.to_nat idx = Some calls →
  numTPFrequency (esphome m) !! Z.to_nat idx = Some f →
  switchTP (esphome m) !! Z.to_nat idx = Some on →
  mSetFrequency n idx v m
  = Some (tt, {| instance := instance m;
                 esphome :=
                   (let c := set_numTPFrequency
                               (<[Z.to_nat idx := v]> (numTPFrequency (esphome m)))
                               (esphome m) in
                    if on
                    then set_outputTP
                           (<[Z.to_nat idx := calls ++ [update_frequency v]]>
                              (outputTP (esphome m))) c
                    else c);
                 console := console m ++
                   [ESP_LOGI "phb_test"
                      "mSetFrequency: idx=%d, frequency=%.2f"
                      [arg_int idx; arg_float v]] |}).
Proof using supported bound_m valid_idx.
  intros Ho Hf Hs. unfold mSetFrequency. rewrite invalid_false by done.
  erewrite bind_Some
    by (eapply publish_state_Some; [by eapply ready_slot | done]).
  erewrite bind_Some by reflexivity.
  erewrite bind_Some
    by (eapply state_Some; [by eapply ready_slot | done]).
  destruct on; [| reflexivity].
  erewrite output_Some; [reflexivity | by eapply ready_slot | done].
Qed.

Lemma mSetDutyCycle_valid v calls (on : bool) :
  outputTP (esphome m) !! Z.to_nat idx = Some calls →
  switchTP (esphome m) !! Z.to_nat idx = Some on →
  mSetDutyCycle n idx v m
  = Some (tt, {| instance := instance m;
                 esphome :=
                   (if on
                    then set_outputTP
                           (<[Z.to_nat idx := calls ++
                                     [set_level (F32.div v F32.hundred)]]>
                              (outputTP (esphome m))) (esphome m)
                    else esphome m);
                 console := console m ++
                   [ESP_LOGI "phb_test"
                      "mSetDutyCycle: idx=%d, duty_cycle=%.2f"
                      [arg_int idx; arg_float v]] |}).
Proof using supported bound_m valid_idx.
  intros Ho Hs. unfold mSetDutyCycle. rewrite invalid_false by done.
  erewrite bind_Some by reflexivity.
  erewrite bind_Some
    by (eapply state_Some; [by eapply ready_slot | done]).
  destruct on; [| reflexivity].
  erewrite output_Some; [reflexivity | by eapply ready_slot | done].
Qed.

End Valid.

(** ** The members on an invalid index *)

Section Invalid.
Variable n : nat.
Variable m : Machine.
Variable idx : Z.
Hypothesis invalid_idx : idx < 0 ∨ Z.of_nat n ≤ idx.

Lemma mIsEnabled_invalid :
  mIsEnabled n idx m = Some (false, rejected "mIsEnabled" idx m).
Proof using invalid_idx.
  unfold mIsEnabled. by rewrite invalid_true.
Qed.

Lemma mGetInputState_invalid :
  mGetInputState n idx m = Some (false, rejected "mGetInputState" idx m).
Proof using invalid_idx.
  unfold mGetInputState. by rewrite invalid_true.
Qed.

Lemma mGetFrequency_invalid :
  mGetFrequency n idx m = Some (F32.zero, rejected "mGetFrequency" idx m).
Proof using invalid_idx.
  unfold mGetFrequency. by rewrite invalid_true.
Qed.

Lemma mGetDutyCycle_invalid :
  mGetDutyCycle n idx m = Some (F32.zero, rejected "mGetDutyCycle" idx m).
Proof using invalid_idx.
  unfold mGetDutyCycle. by rewrite invalid_true.
Qed.

Lemma mTPEnable_invalid :
  mTPEnable n idx m = Some (tt, rejected "mTPEnable" idx m).
Proof using invalid_idx.
  unfold mTPEnable. by rewrite invalid_true.
Qed.

Lemma mTPDisable_invalid :
  mTPDisable n idx m = Some (tt, rejected "mTPDisable" idx m).
Proof using invalid_idx.
  unfold mTPDisable. by rewrite invalid_true.
Qed.

Lemma mSetFrequency_invalid v :
  mSetFrequency n idx v m = Some (tt, rejected "mSetFrequency" idx m).
Proof using invalid_idx.
  unfold mSetFrequency. by rewrite invalid_true.
Qed.

Lemma mSetDutyCycle_invalid v :
  mSetDutyCycle n idx v m = Some (tt, rejected "mSetDutyCycle" idx m).
Proof using invalid_idx.
  unfold mSetDutyCycle. by rewrite invalid_true.
Qed.

End Invalid.

(** ** Calls through the singleton *)

Lemma not_valid n idx : ¬ valid n idx → idx < 0 ∨ Z.of_nat n ≤ idx.
Proof. unfold valid. lia. Qed.

Lemma wired_set_outputTP k calls c :
  wired c → wired (set_outputTP (<[k := calls]> (outputTP c)) c).
Proof. unfold wired. cbn. by rewrite length_insert. Qed.

Lemma wired_set_numTPFrequency k v c :
  wired c → wired (set_numTPFrequency (<[k := v]> (numTPFrequency c)) c).
Proof. unfold wired. cbn. by rewrite length_insert. Qed.

Create HintDb phb.
#[local] Hint Resolve wired_set_outputTP wired_set_numTPFrequency : phb.

(** On a ready state of a supported build no member faults, and none
    touches the object itself. *)
Lemma member_ready n call m :
  (n ≤ 8)%nat → ready n m →
  ∃ r m', member n call m = Some (r, m') ∧
          instance m' = instance m ∧ wired (esphome m').
Proof.
  intros Hn [Hb Hw].
  destruct call as [|idx|idx|idx|idx|idx v|idx|idx v|idx]; cbn [member];
    [ by eexists _, _ | ..];
    (destruct (decide (valid n idx)) as [Hv|Hv];
     [ destruct (wired_lookup n idx _ Hn Hv Hw)
         as ([calls Ho] & [on Hs] & [d Hd] & [f Hf] & [i Hi])
     | apply not_valid in Hv ]).
  - erewrite bind_Some by (by eapply mIsEnabled_valid). by eexists _, _.
  - erewrite bind_Some by (by apply mIsEnabled_invalid). by eexists _, _.
  - erewrite bind_Some by (by eapply mTPEnable_valid).
    eexists _, _; split_and!; [done..|]. cbn. auto with phb.
  - erewrite bind_Some by (by apply mTPEnable_invalid). by eexists _, _.
  - erewrite bind_Some by (by eapply mTPDisable_valid).
    eexists _, _; split_and!; [done..|]. cbn. auto with phb.
  - erewrite bind_Some by (by apply mTPDisable_invalid). by eexists _, _.
  - erewrite bind_Some by (by eapply mGetFrequency_valid). by eexists _, _.
  - erewrite bind_Some by (by apply mGetFrequency_invalid). by eexists _, _.
  - erewrite bind_Some by (by eapply mSetFrequency_valid).
    eexists _, _; split_and!; [done..|]. cbn.
    destruct on; [apply (wired_set_outputTP _ _ (set_numTPFrequency _ _)) |];
      auto with phb.
  - erewrite bind_Some by (by apply mSetFrequency_invalid). by eexists _, _.
  - erewrite bind_Some by (by eapply mGetDutyCycle_valid). by eexists _, _.
  - erewrite bind_Some by (by apply mGetDutyCycle_invalid). by eexists _, _.
  - erewrite bind_Some by (by eapply mSetDutyCycle_valid).
    eexists _, _; split_and!; [done..|]. cbn. destruct on; auto with phb.
  - erewrite bind_Some by (by apply mSetDutyCycle_invalid). by eexists _, _.
  - erewrite bind_Some by (by eapply mGetInputState_valid). by eexists _, _.
  - erewrite bind_Some by (by apply mGetInputState_invalid). by eexists _, _.
Qed.

Lemma perform_ready n call m :
  (n ≤ 8)%nat → ready n m →
  ∃ r m', perform n call m = Some (r, m') ∧
          instance m' = instance m ∧ ready n m'.
Proof.
  intros Hn Hr. unfold perform.
  erewrite bind_Some by (by apply mGet_ready).
  destruct (member_ready n call m Hn Hr) as (r & m' & Hm & Hi & Hw).
  exists r, m'. split_and!; [done..|]. split; [|done].
  rewrite Hi. apply Hr.
Qed.

Lemma perform_boot n call c :
  (n ≤ 8)%nat → wired c →
  ∃ r m', perform n call (boot n c) = Some (r, m') ∧ ready n m'.
Proof.
  intros Hn Hw. unfold perform.
  erewrite bind_Some by apply mGet_boot.
  destruct (member_ready n call
              {| instance := bound n; esphome := c;
                 console := setup_console n |} Hn)
    as (r & m' & Hm & Hi & Hw'); [by split |].
  exists r, m'. split; [done|]. split; [|done]. by rewrite Hi.
Qed.

Lemma reachable_ready n c0 m :
  (n ≤ 8)%nat → wired c0 → reachable n c0 m → ready n m.
Proof.
  intros Hn Hw. induction 1 as [call r m Hp|call r m m' _ IH Hp|c m _ IH Hc].
  - destruct (perform_boot n call c0 Hn Hw) as (r' & m' & Hp' & Hr).
    by simplify_eq.
  - destruct (perform_ready n call m Hn IH) as (r' & m'' & Hp' & _ & Hr).
    by simplify_eq.
  - split; [apply IH | exact Hc].
Qed.

(** ** What never changes the object *)

Lemma keeps_ret {A} (a : A) : keeps (mret a).
Proof. by intros m. Qed.

Lemma keeps_bind {A B} (e : Exec A) (f : A → Exec B) :
  keeps e → (∀ a, keeps (f a)) → keeps (e ≫= f).
Proof.
  intros He Hf m. unfold mbind, Exec_bind.
  specialize (He m). destruct (e m) as [[a m1]|]; [|done].
  specialize (Hf a m1). destruct (f a m1) as [[b m2]|]; [|done].
  congruence.
Qed.

Lemma keeps_lift {A} (o : option A) : keeps (lift o).
Proof. by destruct o. Qed.

Lemma keeps_this : keeps this.
Proof. by intros m. Qed.

Lemma keeps_components : keeps components.
Proof. by intros m. Qed.

Lemma keeps_set_components c : keeps (set_components c).
Proof. by intros m. Qed.

Lemma keeps_log l : keeps (log l).
Proof. by intros m. Qed.

#[local] Hint Resolve keeps_ret keeps_lift keeps_this keeps_components
  keeps_set_components keeps_log : phb.

Ltac keeps_steps :=
  repeat first
    [ progress auto with phb
    | apply keeps_bind; [| intros ? ]
    | match goal with |- keeps (if ?b then _ else _) => destruct b end ].

Lemma keeps_element arr idx : keeps (element arr idx).
Proof. unfold element. keeps_steps. Qed.

Lemma keeps_deref {A} (store : Components → list A) p : keeps (deref store p).
Proof. unfold deref. keeps_steps. Qed.

#[local] Hint Resolve keeps_element keeps_deref : phb.

Lemma keeps_state {A} arr (store : Components → list A) idx :
  keeps (state arr store idx).
Proof. unfold state. keeps_steps. Qed.

Lemma keeps_output idx call : keeps (output idx call).
Proof. unfold output. keeps_steps. Qed.

Lemma keeps_publish_state idx v : keeps (publish_state idx v).
Proof. unfold publish_state. keeps_steps. Qed.

#[local] Hint Resolve keeps_state keeps_output keeps_publish_state : phb.

Lemma keeps_member n call : keeps (member n call).
Proof.
  destruct call; cbn [member];
    unfold mIsEnabled, mTPEnable, mTPDisable, mGetFrequency, mSetFrequency,
      mGetDutyCycle, mSetDutyCycle, mGetInputState, invalid_index;
    keeps_steps.
Qed.

(** ** [setup] always completes *)

Lemma setup_switch_total i m : ∃ m', setup_switch i m = Some (tt, m').
Proof.
  do 9 (destruct i as [|i]; [by eexists |]). by eexists.
Qed.

Lemma setup_loop_total left : ∀ i m, ∃ m', setup_loop left i m = Some (tt, m').
Proof.
  induction left as [|left IH]; intros i m; cbn [setup_loop].
  - by eexists.
  - destruct (setup_switch_total i m) as [m1 H1].
    erewrite bind_Some by exact H1. apply IH.
Qed.

Lemma setup_total n m :
  ∃ m', setup n m = Some (tt, m') ∧ _Initialized (instance m') = true.
Proof.
  unfold setup. erewrite bind_Some by reflexivity.
  destruct (_Initialized (instance m)) eqn:Hi.
  - by exists m.
  - destruct (setup_loop_total n 0 m) as [m1 H1].
    erewrite bind_Some by exact H1. by eexists.
Qed.

Lemma setup_initialized n m :
  _Initialized (instance m) = true → setup n m = Some (tt, m).
Proof.
  intros Hi. unfold setup. erewrite bind_Some by reflexivity. by rewrite Hi.
Qed.

Lemma mGet_total n m :
  ∃ m', mGet n m = Some (tt, m') ∧ _Initialized (instance m') = true.
Proof.
  destruct (_Initialized (instance m)) eqn:Hi.
  - exists m. by rewrite mGet_initialized.
  - unfold mGet. erewrite bind_Some by reflexivity. rewrite Hi. cbn [negb].
    destruct (setup_total n m) as (m1 & H1 & _).
    erewrite bind_Some by exact H1. by eexists.
Qed.

Lemma slots_inj n i j p :
  slots n !! i = Some (Some p) → slots n !! j = Some (Some p) → i = j.
Proof.
  unfold slots. rewrite !list_lookup_fmap.
  intros Hi Hj.
  destruct (seq 0 n !! i) as [a|] eqn:Ha; [|done].
  destruct (seq 0 n !! j) as [b|] eqn:Hb; [|done].
  apply lookup_seq in Ha as [-> _]. apply lookup_seq in Hb as [-> _].
  cbn in Hi, Hj. unfold slot in Hi, Hj.
  repeat case_decide; simplify_eq. done.
Qed.

(** ** The test harness sequence of the specification

    [setFrequency(2, 500.0)], [setDutyCycle(2, 25.0)] on a test point that is
    off, then [enable(2)]: the output is sent the frequency 500, and the
    level of the duty cycle that was stored before, here 0, since
    [mSetDutyCycle] stored nothing. *)
Example set_then_enable_test_point_2 :
  (λ r, outputTP (esphome r.2) !! 2%nat) <$>
    (mSetFrequency 8 2 (F32.of_Z 500);;
     mSetDutyCycle 8 2 (F32.of_Z 25);;
     mTPEnable 8 2) (started 8 hw0)
  = Some (Some [turn_on; update_frequency (F32.of_Z 500);
                set_level F32.zero]).
Proof. reflexivity. Qed.

Example quarter : F32.div (F32.of_Z 25) F32.hundred = S754_finite false 8388608 (-25).
Proof. reflexivity. Qed.

(** * The claims *)

(** C1 (does not hold of the code): [mSetDutyCycle] never writes the
    duty-cycle number.  On every valid index of an initialised object,
    whatever the switch says, the call succeeds and a following
    [mGetDutyCycle] still returns the value [d] stored before the call, not
    the argument [v]. *)
Theorem C1_mSetDutyCycle_keeps_stored_value n m idx v d calls on :
  (n ≤ 8)%nat → instance m = bound n → valid n idx →
  numTPDutyCycle (esphome m) !! Z.to_nat idx = Some d →
  outputTP (esphome m) !! Z.to_nat idx = Some calls →
  switchTP (esphome m) !! Z.to_nat idx = Some on →
  ∃ m', mSetDutyCycle n idx v m = Some (tt, m') ∧
        mGetDutyCycle n idx m' = Some (d, m').
Proof.
  intros Hn Hb Hv Hd Ho Hs.
  erewrite mSetDutyCycle_valid by done.
  eexists; split; [reflexivity|].
  apply mGetDutyCycle_valid; [done..|].
  cbn. by destruct on.
Qed.

Lemma C1_mSetDutyCycle_25_reads_0 :
  ∃ m', mSetDutyCycle 8 2 (F32.of_Z 25) (started 8 hw0) = Some (tt, m') ∧
        mGetDutyCycle 8 2 m' = Some (F32.zero, m') ∧
        F32.zero ≠ F32.of_Z 25.
Proof.
  destruct (C1_mSetDutyCycle_keeps_stored_value
              8 (started 8 hw0) 2 (F32.of_Z 25) F32.zero [] false)
    as (m' & Hset & Hget);
    [lia | reflexivity | unfold valid; lia | reflexivity.. |].
  exists m'. split_and!; [exact Hset | exact Hget |].
  vm_compute. discriminate.
Defined.

(** C2 (does not hold of the code): [mTPEnable] and [mTPDisable] drive the
    output only and leave the switch as it is, so [mIsEnabled] answers
    after either call what it answered before: [on], the state of the
    switch. *)
Theorem C2_enable_disable_keep_switch n m idx on calls f d :
  (n ≤ 8)%nat → instance m = bound n → valid n idx →
  switchTP (esphome m) !! Z.to_nat idx = Some on →
  outputTP (esphome m) !! Z.to_nat idx = Some calls →
  numTPFrequency (esphome m) !! Z.to_nat idx = Some f →
  numTPDutyCycle (esphome m) !! Z.to_nat idx = Some d →
  (∃ m', mTPEnable n idx m = Some (tt, m') ∧
         mIsEnabled n idx m' = Some (on, m')) ∧
  (∃ m', mTPDisable n idx m = Some (tt, m') ∧
         mIsEnabled n idx m' = Some (on, m')).
Proof.
  intros Hn Hb Hv Hs Ho Hf Hd. split.
  - erewrite mTPEnable_valid by done.
    eexists; split; [reflexivity|]. by apply mIsEnabled_valid.
  - erewrite mTPDisable_valid by done.
    eexists; split; [reflexivity|]. by apply mIsEnabled_valid.
Qed.

Lemma C2_enable_then_false_disable_then_true :
  (∃ m', mTPEnable 8 0 (started 8 hw0) = Some (tt, m') ∧
         mIsEnabled 8 0 m' = Some (false, m')) ∧
  (∃ m', mTPDisable 8 3 (started 8 hw1) = Some (tt, m') ∧
         mIsEnabled 8 3 m' = Some (true, m')).
Proof.
  split.
  - apply (C2_enable_disable_keep_switch
             8 (started 8 hw0) 0 false [] F32.zero F32.zero);
      [lia | reflexivity | unfold valid; lia | reflexivity..].
  - apply (C2_enable_disable_keep_switch
             8 (started 8 hw1) 3 true [] (F32.of_Z 1000) (F32.of_Z 50));
      [lia | reflexivity | unfold valid; lia | reflexivity..].
Defined.

(** C3 (does not hold of the code): the members check the range of the
    index and nothing else.  When the build asks for more than eight test
    points, [setup] leaves the slots from 8 on null, and on such an index,
    in range, every member dereferences the null pointer. *)
Theorem C3_unbound_slot_is_dereferenced n m idx v :
  instance m = bound n → valid n idx → 8 ≤ idx →
  mIsEnabled n idx m = None ∧ mTPEnable n idx m = None ∧
  mTPDisable n idx m = None ∧ mGetFrequency n idx m = None ∧
  mSetFrequency n idx v m = None ∧ mGetDutyCycle n idx m = None ∧
  mSetDutyCycle n idx v m = None ∧ mGetInputState n idx m = None.
Proof.
  intros Hb Hv H8.
  assert (Hnull : ∀ arr : phb_test → list ptr, arr (bound n) = slots n →
            arr (instance m) !! Z.to_nat idx = Some nullptr).
  { intros arr Harr. rewrite Hb, Harr. unfold valid in Hv.
    apply lookup_slots_null; lia. }
  unfold mIsEnabled, mTPEnable, mTPDisable, mGetFrequency, mSetFrequency,
    mGetDutyCycle, mSetDutyCycle, mGetInputState.
  rewrite invalid_false by done.
  split_and!.
  - by apply state_nullptr, Hnull.
  - by apply bind_None, output_nullptr, Hnull.
  - by apply bind_None, output_nullptr, Hnull.
  - by apply state_nullptr, Hnull.
  - by apply bind_None, publish_state_nullptr, Hnull.
  - by apply state_nullptr, Hnull.
  - erewrite bind_Some by reflexivity.
    by apply bind_None, state_nullptr, Hnull.
  - by apply state_nullptr, Hnull.
Qed.

Lemma C3_nine_test_points_index_8 :
  mGet 9 (boot 9 hw0) = Some (tt, started 9 hw0) ∧
  (mIsEnabled 9 8 (started 9 hw0) = None ∧
   mTPEnable 9 8 (started 9 hw0) = None ∧
   mTPDisable 9 8 (started 9 hw0) = None ∧
   mGetFrequency 9 8 (started 9 hw0) = None ∧
   mSetFrequency 9 8 (F32.of_Z 500) (started 9 hw0) = None ∧
   mGetDutyCycle 9 8 (started 9 hw0) = None ∧
   mSetDutyCycle 9 8 (F32.of_Z 500) (started 9 hw0) = None ∧
   mGetInputState 9 8 (started 9 hw0) = None) ∧
  mIsEnabled 9 9 (started 9 hw0)
  = Some (false, rejected "mIsEnabled" 9 (started 9 hw0)).
Proof.
  split; [reflexivity | split; [| reflexivity]].
  apply (C3_unbound_slot_is_dereferenced 9 (started 9 hw0) 8 (F32.of_Z 500));
    [reflexivity | unfold valid; lia | lia].
Defined.

(** C4: on a valid index of an initialised object [mTPEnable] sends the
    bound output exactly three calls, in this order: [turn_on], then
    [update_frequency] with the frequency stored, then [set_level] with the
    duty cycle stored divided by [100.0f].  No other output receives a call,
    and no number, switch or input changes. *)
Theorem C4_enable_calls_in_order n m idx calls f d :
  (n ≤ 8)%nat → instance m = bound n → valid n idx →
  outputTP (esphome m) !! Z.to_nat idx = Some calls →
  numTPFrequency (esphome m) !! Z.to_nat idx = Some f →
  numTPDutyCycle (esphome m) !! Z.to_nat idx = Some d →
  ∃ m', mTPEnable n idx m = Some (tt, m') ∧
        esphome m'
        = set_outputTP
            (<[Z.to_nat idx :=
                 calls ++ [turn_on; update_frequency f;
                           set_level (F32.div d F32.hundred)]]>
               (outputTP (esphome m)))
            (esphome m).
Proof.
  intros Hn Hb Hv Ho Hf Hd.
  erewrite mTPEnable_valid by done. by eexists.
Qed.

Lemma C4_enable_test_point_3 :
  ∃ m', mTPEnable 8 3 (started 8 hw1) = Some (tt, m') ∧
        esphome m'
        = set_outputTP
            (<[3%nat := [turn_on; update_frequency (F32.of_Z 1000);
                         set_level (F32.div (F32.of_Z 50) F32.hundred)]]>
               (outputTP hw1))
            hw1.
Proof.
  apply (C4_enable_calls_in_order
           8 (started 8 hw1) 3 [] (F32.of_Z 1000) (F32.of_Z 50));
    [lia | reflexivity | unfold valid; lia | reflexivity..].
Defined.

(** C5: on a valid index of an initialised object [mSetFrequency] stores
    the value in the frequency number, so that [mGetFrequency] returns it,
    and sends [update_frequency] with it to the output exactly when the
    switch is on; with the switch off no output receives a call. *)
Theorem C5_setFrequency_stores_and_propagates n m idx v calls f (on : bool) :
  (n ≤ 8)%nat → instance m = bound n → valid n idx →
  outputTP (esphome m) !! Z.to_nat idx = Some calls →
  numTPFrequency (esphome m) !! Z.to_nat idx = Some f →
  switchTP (esphome m) !! Z.to_nat idx = Some on →
  ∃ m', mSetFrequency n idx v m = Some (tt, m') ∧
        mGetFrequency n idx m' = Some (v, m') ∧
        outputTP (esphome m')
        = (if on
           then <[Z.to_nat idx := calls ++ [update_frequency v]]>
                  (outputTP (esphome m))
           else outputTP (esphome m)).
Proof.
  intros Hn Hb Hv Ho Hf Hs.
  erewrite mSetFrequency_valid by done.
  eexists; split_and!; [reflexivity | | by destruct on].
  apply mGetFrequency_valid; [done..|].
  assert (Z.to_nat idx < length (numTPFrequency (esphome m)))%nat
    by (apply lookup_lt_is_Some; eauto).
  destruct on; cbn; by apply list_lookup_insert_eq.
Qed.

Lemma C5_setFrequency_on_and_off :
  (∃ m', mSetFrequency 8 3 (F32.of_Z 500) (started 8 hw1) = Some (tt, m') ∧
         mGetFrequency 8 3 m' = Some (F32.of_Z 500, m') ∧
         outputTP (esphome m')
         = <[3%nat := [update_frequency (F32.of_Z 500)]]> (outputTP hw1)) ∧
  (∃ m', mSetFrequency 8 2 (F32.of_Z 500) (started 8 hw1) = Some (tt, m') ∧
         mGetFrequency 8 2 m' = Some (F32.of_Z 500, m') ∧
         outputTP (esphome m') = outputTP hw1).
Proof.
  split.
  - apply (C5_setFrequency_stores_and_propagates
             8 (started 8 hw1) 3 (F32.of_Z 500) [] (F32.of_Z 1000) true);
      [lia | reflexivity | unfold valid; lia | reflexivity..].
  - apply (C5_setFrequency_stores_and_propagates
             8 (started 8 hw1) 2 (F32.of_Z 500) [] F32.zero false);
      [lia | reflexivity | unfold valid; lia | reflexivity..].
Defined.

(** C6: on an index below 0 or not below [DEF_TEST_POINTS], in any state,
    [mIsEnabled] and [mGetInputState] return [false], [mGetFrequency] and
    [mGetDutyCycle] return [0.0f], and the four other members return; the
    state after each is [rejected], which differs from the state before in
    one added error line of the log: the object and all components are as
    they were. *)
Theorem C6_invalid_index_defaults n m idx v :
  idx < 0 ∨ Z.of_nat n ≤ idx →
  (mIsEnabled n idx m = Some (false, rejected "mIsEnabled" idx m) ∧
   mGetInputState n idx m = Some (false, rejected "mGetInputState" idx m) ∧
   mGetFrequency n idx m = Some (F32.zero, rejected "mGetFrequency" idx m) ∧
   mGetDutyCycle n idx m = Some (F32.zero, rejected "mGetDutyCycle" idx m) ∧
   mTPEnable n idx m = Some (tt, rejected "mTPEnable" idx m) ∧
   mTPDisable n idx m = Some (tt, rejected "mTPDisable" idx m) ∧
   mSetFrequency n idx v m = Some (tt, rejected "mSetFrequency" idx m) ∧
   mSetDutyCycle n idx v m = Some (tt, rejected "mSetDutyCycle" idx m)) ∧
  ∀ fn, instance (rejected fn idx m) = instance m ∧
        esphome (rejected fn idx m) = esphome m.
Proof.
  intros Hidx. split; [| done].
  split_and!.
  - by apply mIsEnabled_invalid.
  - by apply mGetInputState_invalid.
  - by apply mGetFrequency_invalid.
  - by apply mGetDutyCycle_invalid.
  - by apply mTPEnable_invalid.
  - by apply mTPDisable_invalid.
  - by apply mSetFrequency_invalid.
  - by apply mSetDutyCycle_invalid.
Qed.

Lemma C6_index_8_of_8_and_minus_1 :
  (mIsEnabled 8 8 (started 8 hw1)
   = Some (false, rejected "mIsEnabled" 8 (started 8 hw1)) ∧
   esphome (rejected "mIsEnabled" 8 (started 8 hw1)) = hw1) ∧
  (mSetFrequency 8 (-1) (F32.of_Z 500) (started 8 hw1)
   = Some (tt, rejected "mSetFrequency" (-1) (started 8 hw1)) ∧
   instance (rejected "mSetFrequency" (-1) (started 8 hw1)) = bound 8).
Proof.
  split.
  - destruct (C6_invalid_index_defaults 8 (started 8 hw1) 8 F32.zero)
      as [(H & _) Hsame]; [lia |].
    split; [exact H | apply Hsame].
  - destruct (C6_invalid_index_defaults 8 (started 8 hw1) (-1) (F32.of_Z 500))
      as [(_ & _ & _ & _ & _ & _ & H & _) Hsame]; [lia |].
    split; [exact H | apply Hsame].
Defined.

(** C7: on a valid index of an initialised object [mTPDisable] sends the
    bound output the one call [turn_off] and changes nothing else: the
    object, the numbers, the switches, the inputs and every other output
    are as before.  A following [mTPEnable] therefore applies the frequency
    and the duty cycle that were stored before the [mTPDisable]. *)
Theorem C7_disable_turns_off_only n m idx calls f d :
  (n ≤ 8)%nat → instance m = bound n → valid n idx →
  outputTP (esphome m) !! Z.to_nat idx = Some calls →
  numTPFrequency (esphome m) !! Z.to_nat idx = Some f →
  numTPDutyCycle (esphome m) !! Z.to_nat idx = Some d →
  ∃ m', mTPDisable n idx m = Some (tt, m') ∧
        instance m' = instance m ∧
        esphome m'
        = set_outputTP (<[Z.to_nat idx := calls ++ [turn_off]]>
                          (outputTP (esphome m))) (esphome m) ∧
        ∃ m'', mTPEnable n idx m' = Some (tt, m'') ∧
               outputTP (esphome m'') !! Z.to_nat idx
               = Some (calls ++ [turn_off; turn_on; update_frequency f;
                                 set_level (F32.div d F32.hundred)]).
Proof.
  intros Hn Hb Hv Ho Hf Hd.
  assert (Hk : (Z.to_nat idx < length (outputTP (esphome m)))%nat)
    by (apply lookup_lt_is_Some; eauto).
  erewrite mTPDisable_valid by done.
  eexists; split_and!; [reflexivity..|].
  erewrite mTPEnable_valid;
    [ | done | done | done | cbn; by apply list_lookup_insert_eq | done..].
  eexists; split; [reflexivity|]. cbn.
  rewrite list_lookup_insert_eq by (by rewrite length_insert).
  by rewrite <- app_assoc.
Qed.

Lemma C7_disable_then_enable_test_point_3 :
  ∃ m', mTPDisable 8 3 (started 8 hw1) = Some (tt, m') ∧
        instance m' = bound 8 ∧
        esphome m' = set_outputTP (<[3%nat := [turn_off]]> (outputTP hw1)) hw1 ∧
        ∃ m'', mTPEnable 8 3 m' = Some (tt, m'') ∧
               outputTP (esphome m'') !! 3%nat
               = Some [turn_off; turn_on; update_frequency (F32.of_Z 1000);
                       set_level (F32.div (F32.of_Z 50) F32.hundred)].
Proof.
  apply (C7_disable_turns_off_only
           8 (started 8 hw1) 3 [] (F32.of_Z 1000) (F32.of_Z 50));
    [lia | reflexivity | unfold valid; lia | reflexivity..].
Defined.

(** C8: initialisation is idempotent.  In any state, running [setup] twice
    gives the state that running it once gives, and so does calling [mGet]
    twice; from the start [setup] builds the table [bound], in which no
    component is bound to two slots; and once [_Initialized] is set no call
    through the singleton changes the object, its table included. *)
Theorem C8_initialisation_idempotent n :
  (∀ m, (setup n;; setup n) m = setup n m) ∧
  (∀ m, (mGet n;; mGet n) m = mGet n m) ∧
  (∀ c, setup n (boot n c) = Some (tt, started n c)) ∧
  (∀ c, (setup n;; setup n) (boot n c) = Some (tt, started n c)) ∧
  (∀ i j p, _OutputArray (bound n) !! i = Some (Some p) →
            _OutputArray (bound n) !! j = Some (Some p) → i = j) ∧
  (∀ m call, _Initialized (instance m) = true →
             match perform n call m with
             | Some (_, m') => instance m' = instance m
             | None => True
             end).
Proof.
  split_and!.
  - intros m. destruct (setup_total n m) as (m1 & H1 & Hi).
    erewrite bind_Some by exact H1. rewrite H1. by apply setup_initialized.
  - intros m. destruct (mGet_total n m) as (m1 & H1 & Hi).
    erewrite bind_Some by exact H1. rewrite H1. by apply mGet_initialized.
  - intros c. apply setup_boot.
  - intros c. erewrite bind_Some by apply setup_boot.
    by apply setup_initialized.
  - intros i j p. apply slots_inj.
  - intros m call Hi. unfold perform.
    erewrite bind_Some by (by apply mGet_initialized).
    apply keeps_member.
Qed.

Lemma C8_setup_twice_of_four :
  (setup 4;; setup 4) (boot 4 hw0) = setup 4 (boot 4 hw0) ∧
  setup 4 (boot 4 hw0) = Some (tt, started 4 hw0) ∧
  match perform 4 (setFrequency 1 (F32.of_Z 500)) (started 4 hw0) with
  | Some (_, m') => instance m' = instance (started 4 hw0)
  | None => True
  end.
Proof.
  destruct (C8_initialisation_idempotent 4) as (H1 & _ & H3 & _ & _ & H6).
  split_and!; [apply H1 | apply H3 | apply H6; reflexivity].
Defined.

(** C9: [mGetBootReason] is a function of the reset reason alone and returns,
    for every value of it, one of eleven distinct strings; a reason that is
    none of the ten enumerators named gives ["Unknown"], and, the
    enumerators being distinct, each of them gives the string of its own
    cause. *)
Theorem C9_boot_reason_strings `{esp_reset_reason_t_enum} (reason : Z) :
  mGetBootReason reason ∈ boot_reasons ∧
  length boot_reasons = 11%nat ∧
  NoDup boot_reasons ∧
  (reason ∉ enumerated → mGetBootReason reason = "Unknown") ∧
  (NoDup enumerated → mGetBootReason <$> enumerated = take 10 boot_reasons).
Proof.
  split_and!.
  - unfold mGetBootReason, boot_reasons.
    repeat case_match;
      repeat first [apply list_elem_of_here | apply list_elem_of_further].
  - reflexivity.
  - apply (bool_decide_unpack _). by vm_compute.
  - unfold enumerated, mGetBootReason. intros Hnot.
    rewrite !not_elem_of_cons in Hnot.
    destruct Hnot as (H1 & H2 & H3 & H4 & H5 & H6 & H7 & H8 & H9 & H10 & _).
    apply Z.eqb_neq in H1, H2, H3, H4, H5, H6, H7, H8, H9, H10.
    by rewrite H1, H2, H3, H4, H5, H6, H7, H8, H9, H10.
  - unfold enumerated. intros Hnd.
    repeat match goal with
           | Hnd : NoDup (_ :: _) |- _ =>
               apply NoDup_cons in Hnd as [? Hnd]
           end.
    repeat match goal with
           | Hnot : _ ∉ _ :: _ |- _ =>
               apply not_elem_of_cons in Hnot as [? Hnot]
           end.
    cbn [fmap list_fmap take boot_reasons]. unfold mGetBootReason.
    repeat f_equal;
      repeat case_match;
      repeat match goal with
             | Heq : (_ =? _) = true |- _ => apply Z.eqb_eq in Heq
             | Heq : (_ =? _) = false |- _ => apply Z.eqb_neq in Heq
             end;
      congruence.
Qed.

Lemma C9_boot_reason_of_sdk_codes :
  @mGetBootReason esp_idf 4 = "Exception/Panic" ∧
  @mGetBootReason esp_idf 0 = "Unknown" ∧
  @mGetBootReason esp_idf 11 = "Unknown" ∧
  @mGetBootReason esp_idf <$> @enumerated esp_idf = take 10 boot_reasons.
Proof.
  assert (Hnot : ∀ z, z < 1 ∨ 10 < z → z ∉ @enumerated esp_idf).
  { intros z Hz Hin. unfold enumerated in Hin. cbn in Hin.
    repeat (apply elem_of_cons in Hin as [Hin | Hin]; [lia |]).
    by apply elem_of_nil in Hin. }
  split_and!; [reflexivity | | | ].
  - apply (@C9_boot_reason_strings esp_idf 0), Hnot. lia.
  - apply (@C9_boot_reason_strings esp_idf 11), Hnot. lia.
  - apply (@C9_boot_reason_strings esp_idf 0).
    apply (bool_decide_unpack _). by vm_compute.
Defined.

(** C10: in a build of at most eight test points, with the components in
    place, the first [mGet] completes and leaves [_Initialized] set and all
    five pointers of every slot below [DEF_TEST_POINTS] non-null; and in
    every state reachable by calls through the singleton, with the
    components changing in between, that still holds, every call completes,
    and no call changes the object: neither a pointer nor the flag. *)
Theorem C10_bindings_stay n c0 :
  (n ≤ 8)%nat → wired c0 →
  (∃ m1, mGet n (boot n c0) = Some (tt, m1) ∧
         _Initialized (instance m1) = true ∧
         ∀ i, (i < n)%nat → slot_bound (instance m1) i) ∧
  ∀ m, reachable n c0 m →
       _Initialized (instance m) = true ∧
       (∀ i, (i < n)%nat → slot_bound (instance m) i) ∧
       ∀ call, ∃ r m', perform n call m = Some (r, m') ∧
                       instance m' = instance m.
Proof.
  intros Hn Hw.
  assert (Hslots : ∀ i, (i < n)%nat → slot_bound (bound n) i).
  { intros i Hi. unfold slot_bound. cbn.
    rewrite lookup_slots_bound by lia. naive_solver. }
  split.
  - rewrite mGet_boot. eexists; split_and!; [reflexivity | done | done].
  - intros m Hreach.
    destruct (reachable_ready n c0 m Hn Hw Hreach) as [Hb Hwm].
    rewrite Hb. split_and!; [done | done |].
    intros call.
    destruct (perform_ready n call m Hn (conj Hb Hwm)) as (r & m' & Hp & Hi & _).
    exists r, m'. by rewrite <- Hb.
Qed.

Lemma C10_eight_test_points_after_a_switch_toggle :
  wired hw0 ∧
  _Initialized (instance (started 8 hw1)) = true ∧
  slot_bound (instance (started 8 hw1)) 7 ∧
  ∃ r m', perform 8 (setDutyCycle 3 (F32.of_Z 80)) (started 8 hw1)
          = Some (r, m') ∧
          instance m' = instance (started 8 hw1).
Proof.
  assert (Hw0 : wired hw0) by (by repeat split).
  assert (Hw1 : wired hw1) by (by repeat split).
  split; [exact Hw0 |].
  destruct (C10_bindings_stay 8 hw0 ltac:(lia) Hw0) as [_ Hall].
  destruct (Hall (started 8 hw1)) as (Hi & Hs & Hc).
  - apply (reach_components 8 hw0 hw1 (started 8 hw0)); [| exact Hw1].
    by apply (reach_first 8 hw0 get void).
  - split_and!; [exact Hi | apply Hs; lia | apply Hc].
Defined.

(** * Further properties of the code *)

(** ** The log of [setup] *)

Lemma setup_console_le n : (n ≤ 8)%nat → setup_console n = [].
Proof.
  unfold setup_console. intros Hn.
  do 9 (destruct n as [|n]; [reflexivity |]). lia.
Qed.

Lemma setup_log_gt i : (8 < i)%nat → setup_log i = [].
Proof. intros Hi. unfold setup_log. rewrite decide_False; [done | lia]. Qed.

Lemma setup_console_S n : (8 < n)%nat → setup_console (S n) = setup_console n.
Proof.
  intros Hn. unfold setup_console.
  rewrite seq_S, fmap_app, join_app. cbn.
  by rewrite setup_log_gt, !app_nil_r.
Qed.

Lemma setup_console_gt n : (8 < n)%nat → setup_console n = [too_many].
Proof.
  induction 1 as [|n Hn IH]; [reflexivity |].
  rewrite setup_console_S by lia. exact IH.
Qed.

(** X1: the first [mGet] of a program always completes; it logs the
    "Maxiumum 8 Test Points" error exactly once when the build has more than
    eight test points and logs nothing otherwise; a second [mGet] adds no
    line. *)
Theorem first_mGet_log n c :
  ∃ m, mGet n (boot n c) = Some (tt, m) ∧
       console m = (if decide (8 < n)%nat then [too_many] else []) ∧
       mGet n m = Some (tt, m).
Proof.
  exists (started n c). split_and!.
  - apply mGet_boot.
  - cbn. case_decide.
    + by apply setup_console_gt.
    + apply setup_console_le. lia.
  - by apply mGet_initialized.
Qed.

(** ** The table after the first [mGet] *)

(** X2: after the first [mGet], in a build of any size, slot [i] of each of
    the five arrays points to the component of test point [i] itself when
    [i < 8] and is null from 8 on; the arrays keep their length and the
    components are not touched. *)
Theorem first_mGet_table n c i :
  (i < n)%nat →
  ∃ m, mGet n (boot n c) = Some (tt, m) ∧ esphome m = c ∧
       Forall (λ arr : phb_test → list ptr,
                 length (arr (instance m)) = n ∧
                 arr (instance m) !! i
                 = Some (if decide (i < 8)%nat then Some i else nullptr))
         [_InputArray; _OutputArray; _DutyCycleArray; _FrequencyArray;
          _SwitchArray].
Proof.
  intros Hi. exists (started n c). split_and!; [apply mGet_boot | done |].
  repeat apply Forall_cons_2; [..| apply Forall_nil_2]; cbn;
    (split; [apply length_slots | by apply lookup_slots]).
Qed.

Lemma first_mGet_table_slots_3_and_8_of_9 :
  (∃ m, mGet 9 (boot 9 hw1) = Some (tt, m) ∧ esphome m = hw1 ∧
        _SwitchArray (instance m) !! 3%nat = Some (Some 3%nat)) ∧
  (∃ m, mGet 9 (boot 9 hw1) = Some (tt, m) ∧ esphome m = hw1 ∧
        _SwitchArray (instance m) !! 8%nat = Some nullptr).
Proof.
  split.
  - destruct (first_mGet_table 9 hw1 3) as (m & Hm & Hc & Ht); [lia |].
    exists m. split_and!; [exact Hm | exact Hc |].
    rewrite !Forall_cons in Ht. apply Ht.
  - destruct (first_mGet_table 9 hw1 8) as (m & Hm & Hc & Ht); [lia |].
    exists m. split_and!; [exact Hm | exact Hc |].
    rewrite !Forall_cons in Ht. apply Ht.
Defined.

(** ** Reads *)

(** X3: on a valid index of an initialised object the four reading members
    return the [state] of the switch, the input, the frequency number and
    the duty-cycle number of that test point, and leave the whole program
    state as it is: they change no component and log nothing. *)
Theorem getters_read_only n m idx (on input : bool) (f d : float) :
  (n ≤ 8)%nat → instance m = bound n → valid n idx →
  switchTP (esphome m) !! Z.to_nat idx = Some on →
  inputTP (esphome m) !! Z.to_nat idx = Some input →
  numTPFrequency (esphome m) !! Z.to_nat idx = Some f →
  numTPDutyCycle (esphome m) !! Z.to_nat idx = Some d →
  mIsEnabled n idx m = Some (on, m) ∧
  mGetInputState n idx m = Some (input, m) ∧
  mGetFrequency n idx m = Some (f, m) ∧
  mGetDutyCycle n idx m = Some (d, m).
Proof.
  intros Hn Hb Hv Hs Hi Hf Hd. split_and!.
  - by apply mIsEnabled_valid.
  - by apply mGetInputState_valid.
  - by apply mGetFrequency_valid.
  - by apply mGetDutyCycle_valid.
Qed.

Lemma getters_read_only_test_point_3 :
  mIsEnabled 8 3 (started 8 hw1) = Some (true, started 8 hw1) ∧
  mGetInputState 8 3 (started 8 hw1) = Some (false, started 8 hw1) ∧
  mGetFrequency 8 3 (started 8 hw1) = Some (F32.of_Z 1000, started 8 hw1) ∧
  mGetDutyCycle 8 3 (started 8 hw1) = Some (F32.of_Z 50, started 8 hw1).
Proof.
  apply (getters_read_only 8 (started 8 hw1) 3);
    [lia | reflexivity | unfold valid; lia | reflexivity..].
Defined.

(** ** The duty cycle and the output *)

(** X4: on a valid index of an initialised object [mSetDutyCycle] sends the
    output [set_level] with the value divided by [100.0f] when the switch is
    on, and that is all it does to the components; when the switch is off
    the components stay exactly as they are.  Either way it logs one info
    line. *)
Theorem mSetDutyCycle_propagates n m idx v calls (on : bool) :
  (n ≤ 8)%nat → instance m = bound n → valid n idx →
  outputTP (esphome m) !! Z.to_nat idx = Some calls →
  switchTP (esphome m) !! Z.to_nat idx = Some on →
  ∃ m', mSetDutyCycle n idx v m = Some (tt, m') ∧
        instance m' = instance m ∧
        esphome m'
        = (if on
           then set_outputTP
                  (<[Z.to_nat idx :=
                       calls ++ [set_level (F32.div v F32.hundred)]]>
                     (outputTP (esphome m))) (esphome m)
           else esphome m) ∧
        console m'
        = console m ++
          [ESP_LOGI "phb_test" "mSetDutyCycle: idx=%d, duty_cycle=%.2f"
             [arg_int idx; arg_float v]].
Proof.
  intros Hn Hb Hv Ho Hs.
  erewrite mSetDutyCycle_valid by done. by eexists.
Qed.

Lemma mSetDutyCycle_propagates_on_and_off :
  (∃ m', mSetDutyCycle 8 3 (F32.of_Z 25) (started 8 hw1) = Some (tt, m') ∧
         outputTP (esphome m') !! 3%nat
         = Some [set_level (S754_finite false 8388608 (-25))]) ∧
  (∃ m', mSetDutyCycle 8 2 (F32.of_Z 25) (started 8 hw1) = Some (tt, m') ∧
         esphome m' = hw1).
Proof.
  split.
  - destruct (mSetDutyCycle_propagates
                8 (started 8 hw1) 3 (F32.of_Z 25) [] true)
      as (m' & Hm & _ & He & _);
      [lia | reflexivity | unfold valid; lia | reflexivity.. |].
    exists m'. split; [exact Hm |]. rewrite He. reflexivity.
  - destruct (mSetDutyCycle_propagates
                8 (started 8 hw1) 2 (F32.of_Z 25) [] false)
      as (m' & Hm & _ & He & _);
      [lia | reflexivity | unfold valid; lia | reflexivity.. |].
    exists m'. split; [exact Hm | exact He].
Defined.

(** ** Sequences of calls *)

(** X5: [mSetFrequency] followed by [mTPEnable] on the same valid index: the
    output receives the new frequency [v], not the one stored before, in the
    [update_frequency] of [mTPEnable], after the [update_frequency] of
    [mSetFrequency] itself if the switch is on. *)
Theorem setFrequency_then_enable n m idx v calls f d (on : bool) :
  (n ≤ 8)%nat → instance m = bound n → valid n idx →
  outputTP (esphome m) !! Z.to_nat idx = Some calls →
  numTPFrequency (esphome m) !! Z.to_nat idx = Some f →
  numTPDutyCycle (esphome m) !! Z.to_nat idx = Some d →
  switchTP (esphome m) !! Z.to_nat idx = Some on →
  ∃ m', (mSetFrequency n idx v;; mTPEnable n idx) m = Some (tt, m') ∧
        outputTP (esphome m') !! Z.to_nat idx
        = Some (calls ++ (if on then [update_frequency v] else []) ++
                [turn_on; update_frequency v;
                 set_level (F32.div d F32.hundred)]).
Proof.
  intros Hn Hb Hv Ho Hf Hd Hs.
  assert (Hko : (Z.to_nat idx < length (outputTP (esphome m)))%nat)
    by (apply lookup_lt_is_Some; eauto).
  assert (Hkf : (Z.to_nat idx < length (numTPFrequency (esphome m)))%nat)
    by (apply lookup_lt_is_Some; eauto).
  erewrite bind_Some by (by eapply mSetFrequency_valid).
  destruct on.
  - erewrite mTPEnable_valid;
      [ | done | done | done
        | cbn; by apply list_lookup_insert_eq
        | cbn; by apply list_lookup_insert_eq
        | done ].
    eexists; split; [reflexivity |]. cbn.
    rewrite list_lookup_insert_eq by (by rewrite length_insert).
    by rewrite <- app_assoc.
  - erewrite mTPEnable_valid;
      [ | done | done | done
        | exact Ho
        | cbn; by apply list_lookup_insert_eq
        | done ].
    eexists; split; [reflexivity |]. cbn.
    by rewrite list_lookup_insert_eq.
Qed.

Lemma setFrequency_then_enable_test_point_2 :
  ∃ m', (mSetFrequency 8 2 (F32.of_Z 500);; mTPEnable 8 2) (started 8 hw1)
        = Some (tt, m') ∧
        outputTP (esphome m') !! 2%nat
        = Some [turn_on; update_frequency (F32.of_Z 500);
                set_level (F32.div F32.zero F32.hundred)].
Proof.
  apply (setFrequency_then_enable
           8 (started 8 hw1) 2 (F32.of_Z 500) [] F32.zero F32.zero false);
    [lia | reflexivity | unfold valid; lia | reflexivity..].
Defined.

(** X6: [mTPEnable] twice on the same valid index: the second call sends the
    same three calls again, with the same frequency and level, and nothing
    but the output's calls and the log differs from one [mTPEnable]. *)
Theorem enable_twice n m idx calls f d :
  (n ≤ 8)%nat → instance m = bound n → valid n idx →
  outputTP (esphome m) !! Z.to_nat idx = Some calls →
  numTPFrequency (esphome m) !! Z.to_nat idx = Some f →
  numTPDutyCycle (esphome m) !! Z.to_nat idx = Some d →
  ∃ m', (mTPEnable n idx;; mTPEnable n idx) m = Some (tt, m') ∧
        instance m' = instance m ∧
        esphome m'
        = set_outputTP
            (<[Z.to_nat idx :=
                 calls ++ [turn_on; update_frequency f;
                           set_level (F32.div d F32.hundred);
                           turn_on; update_frequency f;
                           set_level (F32.div d F32.hundred)]]>
               (outputTP (esphome m)))
            (esphome m).
Proof.
  intros Hn Hb Hv Ho Hf Hd.
  assert (Hko : (Z.to_nat idx < length (outputTP (esphome m)))%nat)
    by (apply lookup_lt_is_Some; eauto).
  erewrite bind_Some by (by eapply mTPEnable_valid).
  erewrite mTPEnable_valid;
    [ | done | done | done | cbn; by apply list_lookup_insert_eq | done..].
  eexists; split_and!; [reflexivity | reflexivity |]. cbn.
  unfold set_outputTP; cbn.
  by rewrite list_insert_insert_eq, <- app_assoc.
Qed.

Lemma enable_twice_test_point_3 :
  ∃ m', (mTPEnable 8 3;; mTPEnable 8 3) (started 8 hw1) = Some (tt, m') ∧
        instance m' = bound 8 ∧
        esphome m'
        = set_outputTP
            (<[3%nat :=
                 [turn_on; update_frequency (F32.of_Z 1000);
                  set_level (F32.div (F32.of_Z 50) F32.hundred);
                  turn_on; update_frequency (F32.of_Z 1000);
                  set_level (F32.div (F32.of_Z 50) F32.hundred)]]>
               (outputTP hw1))
            hw1.
Proof.
  apply (enable_twice 8 (started 8 hw1) 3 [] (F32.of_Z 1000) (F32.of_Z 50));
    [lia | reflexivity | unfold valid; lia | reflexivity..].
Defined.

(** ** What no call changes *)

Section Preserving.
Variable R : Machine → Machine → Prop.
Hypothesis R_refl : ∀ m, R m m.
Hypothesis R_trans : ∀ m1 m2 m3, R m1 m2 → R m2 m3 → R m1 m3.

Lemma preserving_ret {A} (a : A) : preserving R (mret a).
Proof using R_refl. intros m. apply R_refl. Qed.

Lemma preserving_bind {A B} (e : Exec A) (f : A → Exec B) :
  preserving R e → (∀ a, preserving R (f a)) → preserving R (e ≫= f).
Proof using R_trans.
  intros He Hf m. unfold mbind, Exec_bind.
  specialize (He m). destruct (e m) as [[a m1]|]; [|done].
  specialize (Hf a m1). destruct (f a m1) as [[b m2]|]; [|done].
  by eapply R_trans.
Qed.

Lemma preserving_lift {A} (o : option A) : preserving R (lift o).
Proof using R_refl. destruct o; [apply preserving_ret | done]. Qed.

Lemma preserving_this : preserving R this.
Proof using R_refl. intros m. apply R_refl. Qed.

Lemma preserving_components : preserving R components.
Proof using R_refl. intros m. apply R_refl. Qed.

End Preserving.

Lemma untouched_refl m : untouched m m.
Proof. by repeat split. Qed.

Lemma untouched_trans m1 m2 m3 :
  untouched m1 m2 → untouched m2 m3 → untouched m1 m3.
Proof. unfold untouched. intros (?&?&?&?&?) (?&?&?&?&?). split_and!; congruence. Qed.

Lemma untouched_log l : preserving untouched (log l).
Proof. intros m. by repeat split. Qed.

Lemma untouched_set_this o : preserving untouched (set_this o).
Proof. intros m. by repeat split. Qed.

Lemma untouched_output idx call : preserving untouched (output idx call).
Proof.
  intros m. unfold output, element, deref, components, this, lift,
    set_components, mbind, Exec_bind, mret, Exec_ret, fault.
  destruct (_OutputArray (instance m) !! Z.to_nat idx) as [[k|]|]; cbn; [|done..].
  destruct (outputTP (esphome m) !! k); cbn; [|done].
  unfold untouched; cbn. by rewrite length_insert.
Qed.

Lemma untouched_publish_state idx v : preserving untouched (publish_state idx v).
Proof.
  intros m. unfold publish_state, element, deref, components, this, lift,
    set_components, mbind, Exec_bind, mret, Exec_ret, fault.
  destruct (_FrequencyArray (instance m) !! Z.to_nat idx) as [[k|]|]; cbn; [|done..].
  destruct (numTPFrequency (esphome m) !! k); cbn; [|done].
  unfold untouched; cbn. by rewrite length_insert.
Qed.

Ltac untouched_steps :=
  repeat first
    [ apply untouched_log | apply untouched_set_this
    | apply untouched_output | apply untouched_publish_state
    | apply (preserving_ret _ untouched_refl)
    | apply (preserving_lift _ untouched_refl)
    | apply (preserving_this _ untouched_refl)
    | apply (preserving_components _ untouched_refl)
    | apply (preserving_bind _ untouched_trans); [| intros ? ]
    | match goal with
      | |- preserving _ (if ?b then _ else _) => destruct b
      end ].

Lemma untouched_state {A} arr (store : Components → list A) idx :
  preserving untouched (state arr store idx).
Proof. unfold state, element, deref. untouched_steps. Qed.

Lemma untouched_member n call : preserving untouched (member n call).
Proof.
  destruct call; cbn [member];
    unfold mIsEnabled, mTPEnable, mTPDisable, mGetFrequency, mSetFrequency,
      mGetDutyCycle, mSetDutyCycle, mGetInputState, invalid_index;
    repeat first [ apply untouched_state | progress untouched_steps ].
Qed.

Lemma untouched_setup_switch i : preserving untouched (setup_switch i).
Proof.
  unfold setup_switch, bind_case.
  do 9 (destruct i as [|i]; [untouched_steps |]). untouched_steps.
Qed.

Lemma untouched_setup_loop left : ∀ i, preserving untouched (setup_loop left i).
Proof.
  induction left as [|left IH]; intros i; cbn [setup_loop].
  - untouched_steps.
  - apply (preserving_bind _ untouched_trans); [| intros _; apply IH].
    by apply untouched_setup_switch.
Qed.

Lemma untouched_mGet n : preserving untouched (mGet n).
Proof.
  unfold mGet, setup, set_Initialized.
  untouched_steps; apply untouched_setup_loop.
Qed.

(** X7: whatever the state, the build and the index, a call through the
    singleton that completes has changed no switch, no input and no
    duty-cycle number, and has neither added nor removed an output or a
    frequency number: the class reads switches and inputs and never writes
    them. *)
Theorem calls_leave_switches_inputs_duty n call :
  preserving untouched (perform n call).
Proof.
  unfold perform.
  apply (preserving_bind _ untouched_trans); [apply untouched_mGet |].
  intros _. apply untouched_member.
Qed.

(** ** Builds of any size *)

Lemma untouched_wired m m' : untouched m m' → wired (esphome m) → wired (esphome m').
Proof. unfold untouched, wired. intros (->&->&->&->&->). done. Qed.

Lemma perform_initialized n call m :
  _Initialized (instance m) = true → perform n call m = member n call m.
Proof.
  intros Hi. unfold perform. by erewrite bind_Some by (by apply mGet_initialized).
Qed.

(** In a build of any size the reachable states have the table of [bound]
    and all components in place. *)
Lemma reachable_bound n c0 m :
  wired c0 → reachable n c0 m → instance m = bound n ∧ wired (esphome m).
Proof.
  intros Hw. induction 1 as [call r m Hp|call r m m' _ [IHb IHw] Hp|c m _ IH Hc].
  - unfold perform in Hp. erewrite bind_Some in Hp by apply mGet_boot.
    pose proof (keeps_member n call (started n c0)) as Hk.
    pose proof (untouched_member n call (started n c0)) as Hu.
    unfold started in Hk, Hu.
    rewrite Hp in Hk, Hu. split; [exact Hk |].
    by apply (untouched_wired _ _ Hu).
  - rewrite perform_initialized in Hp by (by rewrite IHb).
    pose proof (keeps_member n call m) as Hk.
    pose proof (untouched_member n call m) as Hu.
    rewrite Hp in Hk, Hu. split; [congruence |].
    by apply (untouched_wired _ _ Hu).
  - split; [apply IH | exact Hc].
Qed.

(** The steps of a member on an index below 8 of a bound object. *)
Ltac bound_slot Hb Hv H8 :=
  cbn; rewrite Hb; cbn; apply lookup_slots_bound; unfold valid in Hv; lia.

Ltac stored :=
  cbn; first [ eassumption
             | apply list_lookup_insert_eq; rewrite ?length_insert;
               eassumption ].

Ltac run_member Hb Hv H8 :=
  repeat first
    [ rewrite bind_assoc
    | erewrite bind_Some by reflexivity
    | erewrite bind_Some
        by (eapply state_Some; [bound_slot Hb Hv H8 | stored])
    | erewrite bind_Some
        by (eapply output_Some; [bound_slot Hb Hv H8 | stored])
    | erewrite bind_Some
        by (eapply publish_state_Some; [bound_slot Hb Hv H8 | stored]) ].

Lemma member_below_8 n call m idx :
  instance m = bound n → wired (esphome m) →
  index_of call = Some idx → valid n idx → idx < 8 →
  is_Some (member n call m).
Proof.
  intros Hb Hw Hidx Hv H8.
  assert (Hv8 : valid 8 idx) by (unfold valid in *; lia).
  destruct (wired_lookup 8 idx _ (le_n 8) Hv8 Hw)
    as ([calls Ho] & [on Hs] & [d Hd] & [f Hf] & [i Hi]).
  assert (Hko : (Z.to_nat idx < length (outputTP (esphome m)))%nat)
    by (apply lookup_lt_is_Some; eauto).
  destruct call; cbn in Hidx; simplify_eq; cbn [member];
    unfold mIsEnabled, mTPEnable, mTPDisable, mGetFrequency, mSetFrequency,
      mGetDutyCycle, mSetDutyCycle, mGetInputState;
    rewrite invalid_false by done;
    run_member Hb Hv H8; try done.
  - destruct on; run_member Hb Hv H8; done.
  - destruct on; run_member Hb Hv H8; done.
Qed.

Lemma member_from_8 n call m idx :
  instance m = bound n →
  index_of call = Some idx → valid n idx → 8 ≤ idx →
  member n call m = None.
Proof.
  intros Hb Hidx Hv H8.
  assert (Hnull : ∀ arr : phb_test → list ptr, arr (bound n) = slots n →
            arr (instance m) !! Z.to_nat idx = Some nullptr).
  { intros arr Harr. rewrite Hb, Harr. unfold valid in Hv.
    apply lookup_slots_null; lia. }
  destruct call; cbn in Hidx; simplify_eq; cbn [member];
    apply bind_None;
    unfold mIsEnabled, mTPEnable, mTPDisable, mGetFrequency, mSetFrequency,
      mGetDutyCycle, mSetDutyCycle, mGetInputState;
    rewrite invalid_false by done.
  - by apply state_nullptr, Hnull.
  - by apply bind_None, output_nullptr, Hnull.
  - by apply bind_None, output_nullptr, Hnull.
  - by apply state_nullptr, Hnull.
  - by apply bind_None, publish_state_nullptr, Hnull.
  - by apply state_nullptr, Hnull.
  - erewrite bind_Some by reflexivity.
    by apply bind_None, state_nullptr, Hnull.
  - by apply state_nullptr, Hnull.
Qed.

Lemma member_invalid n call m idx :
  index_of call = Some idx → ¬ valid n idx → is_Some (member n call m).
Proof.
  intros Hidx Hv. apply not_valid in Hv.
  destruct call; cbn in Hidx; simplify_eq; cbn [member].
  - by erewrite bind_Some by (by apply mIsEnabled_invalid).
  - by erewrite bind_Some by (by apply mTPEnable_invalid).
  - by erewrite bind_Some by (by apply mTPDisable_invalid).
  - by erewrite bind_Some by (by apply mGetFrequency_invalid).
  - by erewrite bind_Some by (by apply mSetFrequency_invalid).
  - by erewrite bind_Some by (by apply mGetDutyCycle_invalid).
  - by erewrite bind_Some by (by apply mSetDutyCycle_invalid).
  - by erewrite bind_Some by (by apply mGetInputState_invalid).
Qed.

(** X8: in a build of any size, in every state the program can reach, the
    table is the one the first [mGet] built, and a call through the
    singleton dereferences a null pointer exactly when its index is in range
    and at least 8; every other call completes. *)
Theorem call_faults_iff n c0 m call :
  wired c0 → reachable n c0 m →
  instance m = bound n ∧
  (perform n call m = None ↔
   ∃ idx, index_of call = Some idx ∧ 8 ≤ idx < Z.of_nat n).
Proof.
  intros Hw Hreach.
  destruct (reachable_bound n c0 m Hw Hreach) as [Hb Hwm].
  split; [exact Hb |].
  rewrite perform_initialized by (by rewrite Hb). split.
  - intros Hnone.
    destruct (index_of call) as [idx|] eqn:Hidx.
    + exists idx. split; [done |].
      destruct (decide (valid n idx)) as [Hv|Hv].
      * destruct (decide (idx < 8)) as [H8|H8]; [| unfold valid in Hv; lia].
        destruct (member_below_8 n call m idx Hb Hwm Hidx Hv H8) as [x Hx].
        congruence.
      * destruct (member_invalid n call m idx Hidx Hv) as [x Hx]. congruence.
    + by destruct call; cbn in Hidx; simplify_eq.
  - intros (idx & Hidx & H8 & Hn).
    apply (member_from_8 n call m idx); [done | done | unfold valid; lia | done].
Qed.

Lemma call_faults_iff_nine_test_points :
  wired hw0 ∧
  instance (started 9 hw0) = bound 9 ∧
  perform 9 (getFrequency 8) (started 9 hw0) = None ∧
  perform 9 (getFrequency 7) (started 9 hw0) ≠ None ∧
  perform 9 (getFrequency 9) (started 9 hw0) ≠ None.
Proof.
  assert (Hw0 : wired hw0) by (by repeat split).
  assert (Hr : reachable 9 hw0 (started 9 hw0))
    by (by apply (reach_first 9 hw0 get void)).
  split; [exact Hw0 |].
  split; [apply (call_faults_iff 9 hw0 (started 9 hw0) get Hw0 Hr) |].
  split_and!.
  - apply (call_faults_iff 9 hw0 (started 9 hw0) (getFrequency 8) Hw0 Hr).
    exists 8. split; [reflexivity | lia].
  - intros Hnone.
    apply (call_faults_iff 9 hw0 (started 9 hw0) (getFrequency 7) Hw0 Hr)
      in Hnone as (idx & Hidx & H8).
    cbn in Hidx. injection Hidx as <-. lia.
  - intros Hnone.
    apply (call_faults_iff 9 hw0 (started 9 hw0) (getFrequency 9) Hw0 Hr)
      in Hnone as (idx & Hidx & H8).
    cbn in Hidx. injection Hidx as <-. lia.
Defined.

(** ** One test point at a time *)

(** X9: in a supported build, a call on one index leaves the calls received
    by the output and the frequency stored of every other test point as
    they were (switches, inputs and duty cycles no call changes at all). *)
Theorem calls_are_isolated n m call r m' (k : nat) :
  (n ≤ 8)%nat → ready n m →
  index_of call ≠ Some (Z.of_nat k) →
  perform n call m = Some (r, m') →
  outputTP (esphome m') !! k = outputTP (esphome m) !! k ∧
  numTPFrequency (esphome m') !! k = numTPFrequency (esphome m) !! k.
Proof.
  intros Hn [Hb Hw] Hne Hp.
  rewrite perform_initialized in Hp by (by rewrite Hb).
  destruct call as [|idx|idx|idx|idx|idx v|idx|idx v|idx]; cbn [member] in Hp;
    [ unfold mret, Exec_ret in Hp; by simplify_eq | ..];
    (destruct (decide (valid n idx)) as [Hv|Hv];
     [ destruct (wired_lookup n idx _ Hn Hv Hw)
         as ([calls Ho] & [on Hs] & [d Hd] & [f Hf] & [i Hi]);
       assert (Z.to_nat idx ≠ k)
         by (cbn in Hne; unfold valid in Hv; intros <-; apply Hne; f_equal; lia)
     | apply not_valid in Hv ]).
  - erewrite bind_Some in Hp by (by eapply mIsEnabled_valid);
      unfold mret, Exec_ret in Hp; by simplify_eq.
  - erewrite bind_Some in Hp by (by apply mIsEnabled_invalid);
      unfold mret, Exec_ret in Hp; by simplify_eq.
  - erewrite bind_Some in Hp by (by eapply mTPEnable_valid);
      unfold mret, Exec_ret in Hp; simplify_eq.
    cbn. by rewrite list_lookup_insert_ne.
  - erewrite bind_Some in Hp by (by apply mTPEnable_invalid);
      unfold mret, Exec_ret in Hp; by simplify_eq.
  - erewrite bind_Some in Hp by (by eapply mTPDisable_valid);
      unfold mret, Exec_ret in Hp; simplify_eq.
    cbn. by rewrite list_lookup_insert_ne.
  - erewrite bind_Some in Hp by (by apply mTPDisable_invalid);
      unfold mret, Exec_ret in Hp; by simplify_eq.
  - erewrite bind_Some in Hp by (by eapply mGetFrequency_valid);
      unfold mret, Exec_ret in Hp; by simplify_eq.
  - erewrite bind_Some in Hp by (by apply mGetFrequency_invalid);
      unfold mret, Exec_ret in Hp; by simplify_eq.
  - erewrite bind_Some in Hp by (by eapply mSetFrequency_valid);
      unfold mret, Exec_ret in Hp; simplify_eq.
    destruct on; cbn; by rewrite !list_lookup_insert_ne.
  - erewrite bind_Some in Hp by (by apply mSetFrequency_invalid);
      unfold mret, Exec_ret in Hp; by simplify_eq.
  - erewrite bind_Some in Hp by (by eapply mGetDutyCycle_valid);
      unfold mret, Exec_ret in Hp; by simplify_eq.
  - erewrite bind_Some in Hp by (by apply mGetDutyCycle_invalid);
      unfold mret, Exec_ret in Hp; by simplify_eq.
  - erewrite bind_Some in Hp by (by eapply mSetDutyCycle_valid);
      unfold mret, Exec_ret in Hp; simplify_eq.
    destruct on; cbn; by rewrite ?list_lookup_insert_ne.
  - erewrite bind_Some in Hp by (by apply mSetDutyCycle_invalid);
      unfold mret, Exec_ret in Hp; by simplify_eq.
  - erewrite bind_Some in Hp by (by eapply mGetInputState_valid);
      unfold mret, Exec_ret in Hp; by simplify_eq.
  - erewrite bind_Some in Hp by (by apply mGetInputState_invalid);
      unfold mret, Exec_ret in Hp; by simplify_eq.
Qed.

Lemma calls_are_isolated_enable_2_keeps_3 :
  match perform 8 (enable 2) (started 8 hw1) with
  | Some (_, m') =>
      outputTP (esphome m') !! 3%nat = Some [] ∧
      numTPFrequency (esphome m') !! 3%nat = Some (F32.of_Z 1000)
  | None => False
  end.
Proof.
  destruct (perform 8 (enable 2) (started 8 hw1)) as [[r m']|] eqn:Hp;
    [| vm_compute in Hp; discriminate Hp].
  destruct (calls_are_isolated 8 (started 8 hw1) (enable 2) r m' 3)
    as [Ho Hf];
    [lia | by repeat split | discriminate | exact Hp |].
  split; [exact (eq_trans Ho eq_refl) | exact (eq_trans Hf eq_refl)].
Defined.

(** ** Whole percentages *)

Lemma percent_level p :
  0 ≤ p ≤ 100 →
  SFleb F32.zero (F32.div (F32.of_Z p) F32.hundred) = true ∧
  SFleb (F32.div (F32.of_Z p) F32.hundred) (F32.of_Z 1) = true.
Proof.
  intros Hp.
  assert (Hall : forallb (λ k : nat,
            SFleb F32.zero (F32.div (F32.of_Z (Z.of_nat k)) F32.hundred) &&
            SFleb (F32.div (F32.of_Z (Z.of_nat k)) F32.hundred) (F32.of_Z 1))
            (seq 0 101) = true) by (by vm_compute).
  rewrite forallb_forall in Hall.
  specialize (Hall (Z.to_nat p)). rewrite Z2Nat.id in Hall by lia.
  apply andb_true_iff, Hall, in_seq. lia.
Qed.

(** X10: with the switch on, [mSetDutyCycle] of a whole percentage between 0
    and 100 sends the output a level between [0.0f] and [1.0f]. *)
Theorem mSetDutyCycle_level_in_range n m idx p calls :
  (n ≤ 8)%nat → instance m = bound n → valid n idx →
  outputTP (esphome m) !! Z.to_nat idx = Some calls →
  switchTP (esphome m) !! Z.to_nat idx = Some true →
  0 ≤ p ≤ 100 →
  ∃ m' level,
    mSetDutyCycle n idx (F32.of_Z p) m = Some (tt, m') ∧
    outputTP (esphome m') !! Z.to_nat idx = Some (calls ++ [set_level level]) ∧
    SFleb F32.zero level = true ∧ SFleb level (F32.of_Z 1) = true.
Proof.
  intros Hn Hb Hv Ho Hs Hp.
  assert (Hko : (Z.to_nat idx < length (outputTP (esphome m)))%nat)
    by (apply lookup_lt_is_Some; eauto).
  erewrite mSetDutyCycle_valid by done.
  eexists _, _. split; [reflexivity |]. cbn.
  split; [by apply list_lookup_insert_eq | by apply percent_level].
Qed.

Lemma mSetDutyCycle_level_of_80_percent :
  ∃ m' level,
    mSetDutyCycle 8 3 (F32.of_Z 80) (started 8 hw1) = Some (tt, m') ∧
    outputTP (esphome m') !! 3%nat = Some [set_level level] ∧
    SFleb F32.zero level = true ∧ SFleb level (F32.of_Z 1) = true.
Proof.
  apply (mSetDutyCycle_level_in_range 8 (started 8 hw1) 3 80 []);
    [lia | reflexivity | unfold valid; lia | reflexivity | reflexivity | lia].
Defined.

(** ** The boot reason read backwards *)

(** X11: the string [mGetBootReason] returns tells the reset reason: it is
    ["Unknown"] exactly when the reason is none of the ten enumerators, and
    when it is the string at position [k < 10] of the list, the reason is
    the enumerator at position [k]. *)
Theorem boot_reason_names_the_code `{esp_reset_reason_t_enum} (reason : Z) :
  (mGetBootReason reason = "Unknown" ↔ reason ∉ enumerated) ∧
  ∀ k, (k < 10)%nat →
       boot_reasons !! k = Some (mGetBootReason reason) →
       enumerated !! k = Some reason.
Proof.
  split; [split |].
  - unfold mGetBootReason, enumerated.
    repeat case_match; try discriminate. intros _.
    repeat match goal with
           | Heq : (_ =? _) = false |- _ => apply Z.eqb_neq in Heq
           end.
    rewrite !not_elem_of_cons. split_and!; try done. apply not_elem_of_nil.
  - unfold enumerated, mGetBootReason. intros Hnot.
    rewrite !not_elem_of_cons in Hnot.
    destruct Hnot as (H1 & H2 & H3 & H4 & H5 & H6 & H7 & H8 & H9 & H10 & _).
    apply Z.eqb_neq in H1, H2, H3, H4, H5, H6, H7, H8, H9, H10.
    by rewrite H1, H2, H3, H4, H5, H6, H7, H8, H9, H10.
  - intros k Hk. unfold mGetBootReason, enumerated, boot_reasons.
    do 10 (destruct k as [|k];
           [ cbn; intros Heq; injection Heq as Heq;
             repeat case_match; try discriminate;
             match goal with
             | Hc : (reason =? _) = true |- _ =>
                 apply Z.eqb_eq in Hc; by rewrite Hc
             end | ]).
    lia.
Qed.

Lemma boot_reason_names_the_code_sdk :
  (@mGetBootReason esp_idf 12 = "Unknown" ↔ 12 ∉ @enumerated esp_idf) ∧
  @enumerated esp_idf !! 7%nat = Some 8.
Proof.
  split.
  - apply (@boot_reason_names_the_code esp_idf 12).
  - apply (proj2 (@boot_reason_names_the_code esp_idf 8) 7%nat);
      [lia | reflexivity].
Defined.

(** ** The switch alone gates propagation *)

(** X12: whether a new value reaches the output is decided by the state of
    the switch and not by the last [mTPEnable] or [mTPDisable]: after
    [mTPDisable], [mSetDutyCycle] still sends [set_level] when the switch is
    on, and after [mTPEnable], [mSetFrequency] sends no [update_frequency]
    when the switch is off. *)
Theorem propagation_follows_the_switch n m idx v calls f d (on : bool) :
  (n ≤ 8)%nat → instance m = bound n → valid n idx →
  outputTP (esphome m) !! Z.to_nat idx = Some calls →
  numTPFrequency (esphome m) !! Z.to_nat idx = Some f →
  numTPDutyCycle (esphome m) !! Z.to_nat idx = Some d →
  switchTP (esphome m) !! Z.to_nat idx = Some on →
  (∃ m', (mTPDisable n idx;; mSetDutyCycle n idx v) m = Some (tt, m') ∧
         outputTP (esphome m') !! Z.to_nat idx
         = Some (calls ++ turn_off ::
                 if on then [set_level (F32.div v F32.hundred)] else [])) ∧
  (∃ m', (mTPEnable n idx;; mSetFrequency n idx v) m = Some (tt, m') ∧
         outputTP (esphome m') !! Z.to_nat idx
         = Some (calls ++ turn_on :: update_frequency f ::
                 set_level (F32.div d F32.hundred) ::
                 if on then [update_frequency v] else [])).
Proof.
  intros Hn Hb Hv Ho Hf Hd Hs.
  assert (Hko : (Z.to_nat idx < length (outputTP (esphome m)))%nat)
    by (apply lookup_lt_is_Some; eauto).
  split.
  - erewrite bind_Some by (by eapply mTPDisable_valid).
    erewrite mSetDutyCycle_valid;
      [ | done | done | done | cbn; by apply list_lookup_insert_eq | done ].
    eexists; split; [reflexivity |].
    destruct on; cbn.
    + rewrite list_lookup_insert_eq by (by rewrite length_insert).
      by rewrite <- app_assoc.
    + by rewrite list_lookup_insert_eq.
  - erewrite bind_Some by (by eapply mTPEnable_valid).
    erewrite mSetFrequency_valid;
      [ | done | done | done | cbn; by apply list_lookup_insert_eq | done..].
    eexists; split; [reflexivity |].
    destruct on; cbn.
    + rewrite list_lookup_insert_eq by (by rewrite length_insert).
      by rewrite <- app_assoc.
    + by rewrite list_lookup_insert_eq.
Qed.

Lemma propagation_follows_the_switch_on_3_off_2 :
  (∃ m', (mTPDisable 8 3;; mSetDutyCycle 8 3 (F32.of_Z 80)) (started 8 hw1)
         = Some (tt, m') ∧
         outputTP (esphome m') !! 3%nat
         = Some [turn_off; set_level (F32.div (F32.of_Z 80) F32.hundred)]) ∧
  (∃ m', (mTPEnable 8 2;; mSetFrequency 8 2 (F32.of_Z 500)) (started 8 hw1)
         = Some (tt, m') ∧
         outputTP (esphome m') !! 2%nat
         = Some [turn_on; update_frequency F32.zero;
                 set_level (F32.div F32.zero F32.hundred)]).
Proof.
  split.
  - apply (propagation_follows_the_switch
             8 (started 8 hw1) 3 (F32.of_Z 80) [] (F32.of_Z 1000)
             (F32.of_Z 50) true);
      [lia | reflexivity | unfold valid; lia | reflexivity..].
  - apply (propagation_follows_the_switch
             8 (started 8 hw1) 2 (F32.of_Z 500) [] F32.zero F32.zero false);
      [lia | reflexivity | unfold valid; lia | reflexivity..].
Defined.

(** ** The error of [setup] in the log *)

Lemma quiet_refl m : quiet m m.
Proof. exists []. split; [by rewrite app_nil_r | apply not_elem_of_nil]. Qed.

Lemma quiet_trans m1 m2 m3 : quiet m1 m2 → quiet m2 m3 → quiet m1 m3.
Proof.
  intros (l1 & H1 & N1) (l2 & H2 & N2). exists (l1 ++ l2). split.
  - by rewrite H2, H1, app_assoc.
  - rewrite elem_of_app. tauto.
Qed.

Lemma quiet_log l : l ≠ too_many → preserving quiet (log l).
Proof.
  intros Hl m. exists [l]. split; [done |].
  rewrite list_elem_of_singleton. congruence.
Qed.

Lemma quiet_set_components c : preserving quiet (set_components c).
Proof.
  intros m. exists []. split; [cbn; by rewrite app_nil_r | apply not_elem_of_nil].
Qed.

Ltac quiet_steps :=
  repeat first
    [ apply quiet_set_components
    | apply quiet_log; discriminate
    | apply (preserving_ret _ quiet_refl)
    | apply (preserving_lift _ quiet_refl)
    | apply (preserving_this _ quiet_refl)
    | apply (preserving_components _ quiet_refl)
    | apply (preserving_bind _ quiet_trans); [| intros ? ]
    | match goal with
      | |- preserving _ (if ?b then _ else _) => destruct b
      end ].

Lemma quiet_member n call : preserving quiet (member n call).
Proof.
  destruct call; cbn [member];
    unfold mIsEnabled, mTPEnable, mTPDisable, mGetFrequency, mSetFrequency,
      mGetDutyCycle, mSetDutyCycle, mGetInputState, invalid_index,
      state, output, publish_state, element, deref;
    quiet_steps.
Qed.

(** X13: the error of [setup] is in the log once, as its first line, in a
    build of more than eight test points and never otherwise: in no state
    the program reaches has a later call logged it again. *)
Theorem setup_error_logged_once n c0 m :
  wired c0 → reachable n c0 m →
  ∃ lines,
    console m = (if decide (8 < n)%nat then [too_many] else []) ++ lines ∧
    too_many ∉ lines.
Proof.
  intros Hw Hreach.
  assert (Hfirst : setup_console n
                   = if decide (8 < n)%nat then [too_many] else []).
  { case_decide; [by apply setup_console_gt | apply setup_console_le; lia]. }
  rewrite <- Hfirst. clear Hfirst.
  induction Hreach as [call r m Hp|call r m m' Hreach IH Hp|c m _ IH Hc].
  - unfold perform in Hp. erewrite bind_Some in Hp by apply mGet_boot.
    pose proof (quiet_member n call (started n c0)) as Hq.
    unfold started in Hq. by rewrite Hp in Hq.
  - destruct (reachable_bound n c0 m Hw Hreach) as [Hb _].
    rewrite perform_initialized in Hp by (by rewrite Hb).
    pose proof (quiet_member n call m) as Hq. rewrite Hp in Hq.
    destruct IH as (l1 & H1 & N1). destruct Hq as (l2 & H2 & N2).
    exists (l1 ++ l2). split.
    + by rewrite H2, H1, app_assoc.
    + rewrite elem_of_app. tauto.
  - exact IH.
Qed.

Lemma setup_error_logged_once_nine_test_points :
  wired hw0 ∧
  ∃ lines,
    console (rejected "mGetFrequency" 9 (started 9 hw0)) = [too_many] ++ lines ∧
    too_many ∉ lines.
Proof.
  assert (Hw0 : wired hw0) by (by repeat split).
  split; [exact Hw0 |].
  apply (setup_error_logged_once
           9 hw0 (rejected "mGetFrequency" 9 (started 9 hw0)) Hw0).
  by apply (reach_first 9 hw0 (getFrequency 9) (of_float F32.zero)).
Defined.
